(** * geoid-globe: the preprocessing pipeline of the geoid globe viewer

    A shallow embedding of the four modules of [geoid_globe]:

    - [generate_geoid.py]          ([save_geoid_as_geotiff], [generate_geoid])
    - [convert_raster_to_json.py]  ([geotiff_to_json])
    - [clean_world_geojson.py]     ([clean_world_geojson])
    - [pipeline.py]                ([PipelineConfig], [run_pipeline], [main])

    The Python functions are effectful: they read and write files and may
    raise.  They are embedded in a state-and-exception monad over a file
    system ([world]).  The numerical and geometrical libraries they call
    (numpy, xarray, shapely 2, geopandas 1) are embedded by the part of their
    documented behaviour that the four modules use; the gravity model, the
    network and the file codecs are parameters ([env]).

    Numbers are IEEE 754 binary64 values, the [float64] of numpy and the
    [float] of Python: Rocq's primitive [float]. *)

From Stdlib Require Import ZArith Floats Lia List Bool Sorted.
From stdpp Require Import gmap strings list fin_maps.
Import ListNotations.

Set Warnings "-register-all".

(** ** Python: exceptions and results *)

Module Py.

Inductive exn : Type :=
| ValueError            (* numpy: zero slice step, reduction of an empty array *)
| FileNotFoundError     (* pathlib: stat of a missing file; run_pipeline *)
| FileExistsError       (* pathlib: mkdir over a regular file *)
| NotADirectoryError    (* pathlib: mkdir below a regular file *)
| ValidationError       (* pydantic: a field constraint is violated *)
| RasterioIOError       (* rioxarray: the raster cannot be opened *)
| DataSourceError       (* geopandas: the feature source cannot be read *)
| ExternalError (what : string). (* raised by a collaborator of [env] *)

Inductive result (A : Type) : Type :=
| Ok (a : A)
| Raise (e : exn).
Global Arguments Ok {A} a.
Global Arguments Raise {A} e.

Global Instance exn_eq_dec : EqDecision exn.
Proof. solve_decision. Defined.

End Py.
Export Py.

(** ** IEEE 754 binary64 *)

Module F64.

Local Open Scope float_scope.

Definition isnan (x : float) : bool := negb (x =? x).

End F64.

(** ** numpy: strided slices, reductions, sorting *)

Module Np.

Local Open Scope float_scope.
Import F64.

(** [every gap skip l] drops [skip] elements, keeps one, drops [gap],
    keeps one, and so on: the elements of [l] at the positions
    [skip], [skip + (gap+1)], [skip + 2 (gap+1)], ... *)
Fixpoint every {A} (gap skip : nat) (l : list A) : list A :=
  match l with
  | [] => []
  | x :: t =>
      match skip with
      | O => x :: every gap gap t
      | S s => every gap s t
      end
  end.

(** The elements selected by the slice [[::k]] with [k <> 0]: from the
    first element forwards when [k > 0], from the last element backwards
    when [k < 0]. *)
Definition strided {A} (k : Z) (l : list A) : list A :=
  if (0 <? k)%Z then every (Z.to_nat k - 1) 0 l
  else every (Z.to_nat (- k) - 1) 0 (rev l).

(** The length Python computes for the slice [[::k]] of a sequence of
    length [n] ([PySlice_AdjustIndices]). *)
Definition slice_len (n : nat) (k : Z) : nat :=
  match n with
  | O => O
  | S m => (m / Z.to_nat (Z.abs k) + 1)%nat
  end.

(** [a[::k]] on a one-dimensional array. *)
Definition getitem_step {A} (k : Z) (l : list A) : result (list A) :=
  if (k =? 0)%Z then Raise ValueError else Ok (strided k l).

(** A two-dimensional [float64] array: its [shape] and its rows. *)
Record ndarray : Type := { shape : nat * nat; rows : list (list float) }.

Definition wf_ndarray (a : ndarray) : Prop :=
  length (rows a) = fst (shape a) /\
  Forall (fun r => length r = snd (shape a)) (rows a).

(** [a[::k, ::k]] on a two-dimensional array. *)
Definition getitem_step2 (k : Z) (a : ndarray) : result ndarray :=
  if (k =? 0)%Z then Raise ValueError
  else Ok {| shape := (slice_len (fst (shape a)) k, slice_len (snd (shape a)) k);
             rows := map (strided k) (strided k (rows a)) |}.

(** [a.tolist()] and [list(a.shape)]. *)
Definition tolist (a : ndarray) : list (list float) := rows a.
Definition shape_list (a : ndarray) : list nat := [fst (shape a); snd (shape a)].

(** The ufuncs [fmin] and [fmax] ignore a NaN operand, [minimum] and
    [maximum] propagate it. *)
Definition fmin (x y : float) : float := if (x <=? y) || isnan y then x else y.
Definition fmax (x y : float) : float := if (y <=? x) || isnan y then x else y.
Definition minimum (x y : float) : float := if (x <? y) || isnan x then x else y.
Definition maximum (x y : float) : float := if (y <? x) || isnan x then x else y.

(** [ufunc.reduce] over all elements; these ufuncs have no identity, so an
    empty array is a [ValueError]. *)
Definition reduce (op : float -> float -> float) (l : list float) : result float :=
  match l with
  | [] => Raise ValueError
  | x :: t => Ok (fold_left op t x)
  end.

Definition nanmin (a : ndarray) : result float := reduce fmin (concat (rows a)).
Definition nanmax (a : ndarray) : result float := reduce fmax (concat (rows a)).
Definition amin (l : list float) : result float := reduce minimum l.
Definition amax (l : list float) : result float := reduce maximum l.

(** The order of numpy's sorts: NaN after every other value. *)
Definition sort_lt (x y : float) : bool := (x <? y) || (isnan y && negb (isnan x)).

Fixpoint insert_key (x : nat * float) (l : list (nat * float)) : list (nat * float) :=
  match l with
  | [] => [x]
  | y :: t => if sort_lt (snd x) (snd y) then x :: l else y :: insert_key x t
  end.

(** [np.lexsort((keys,))]: the positions of [keys] in ascending order of
    key, equal keys in their original order. *)
Definition argsort (keys : list float) : list nat :=
  map fst (fold_left (fun acc x => insert_key x acc) (imap pair keys) []).

(** [a[idx]] for a list of positions. *)
Definition take {A} (idx : list nat) (l : list A) : list A :=
  omap (fun i => l !! i) idx.

End Np.

(** ** xarray: a two-dimensional grid with its coordinate axes *)

Module Xr.

(** A [DataArray] over the dimensions [(latitude, longitude)] (named
    [(y, x)] once read back from a raster file): [values] has one row per
    latitude and one column per longitude. *)
Record DataArray : Type := {
  values : Np.ndarray;
  latitude : list float;
  longitude : list float
}.

Definition wf_DataArray (a : DataArray) : Prop :=
  Np.wf_ndarray (values a) /\
  length (latitude a) = fst (Np.shape (values a)) /\
  length (longitude a) = snd (Np.shape (values a)).

(** [a.coords["longitude"] = lons]. *)
Definition assign_longitude (lons : list float) (a : DataArray) : DataArray :=
  {| values := values a; latitude := latitude a; longitude := lons |}.

(** [a.sortby("longitude")]: the positions of the longitude axis in
    ascending order ([np.lexsort]), then the axis and every row of the
    grid taken at these positions. *)
Definition sortby_longitude (a : DataArray) : DataArray :=
  let idx := Np.argsort (longitude a) in
  {| values := {| Np.shape := (fst (Np.shape (values a)), length idx);
                  Np.rows := map (Np.take idx) (Np.rows (values a)) |};
     latitude := latitude a;
     longitude := Np.take idx (longitude a) |}.

End Xr.

(** ** shapely: geometries, their parts and their boundaries *)

Module Shapely.

Local Open Scope float_scope.

(** A position is a pair (longitude, latitude). *)
Definition position : Type := float * float.

(** The geometry types of GeoJSON.  The rings of a [Polygon] are its
    exterior ring followed by its holes; the polygon without rings is the
    empty polygon. *)
Inductive geometry : Type :=
| Point (c : position)
| MultiPoint (cs : list position)
| LineString (cs : list position)
| MultiLineString (ls : list (list position))
| Polygon (rings : list (list position))
| MultiPolygon (ps : list (list (list position)))
| GeometryCollection (gs : list geometry).

(** [shapely.get_parts]: the members of a multi-part geometry or of a
    collection (one level only); a single-part geometry is its own and
    only part. *)
Definition get_parts (g : geometry) : list geometry :=
  match g with
  | MultiPoint cs => map Point cs
  | MultiLineString ls => map LineString ls
  | MultiPolygon ps => map Polygon ps
  | GeometryCollection gs => gs
  | _ => [g]
  end.

Definition position_eqb (a b : position) : bool :=
  (fst a =? fst b) && (snd a =? snd b).

(** Lexicographic order on positions, the order in which GEOS lists the
    points of a boundary. *)
Definition position_ltb (a b : position) : bool :=
  (fst a <? fst b) || ((fst a =? fst b) && (snd a <? snd b)).

Definition is_closed (cs : list position) : bool :=
  match cs with
  | [] => false
  | c :: _ => position_eqb c (List.last cs c)
  end.

(** The two end points of a line; none for the empty line. *)
Definition end_points (cs : list position) : list position :=
  match cs with
  | [] => []
  | c :: _ => [c; List.last cs c]
  end.

Definition valence (c : position) (cs : list position) : nat :=
  length (filter (fun d => position_eqb c d = true) cs).

Fixpoint insert_position (c : position) (l : list position) : list position :=
  match l with
  | [] => [c]
  | d :: t =>
      if position_eqb c d then l
      else if position_ltb c d then c :: l
      else d :: insert_position c t
  end.

(** The boundary of a set of lines under the mod-2 rule: the end points
    that belong to an odd number of lines, each once, in order. *)
Definition mod2_boundary (ls : list (list position)) : list position :=
  let ends := flat_map end_points ls in
  fold_right insert_position []
    (filter (fun c => Nat.odd (valence c ends) = true) ends).

(** [shapely.boundary]: [None] is the missing value that shapely returns
    for a collection. *)
Definition boundary (g : geometry) : option geometry :=
  match g with
  | Point _ | MultiPoint _ => Some (GeometryCollection [])
  | LineString cs =>
      if is_closed cs then Some (MultiPoint [])
      else Some (MultiPoint (end_points cs))
  | MultiLineString ls =>
      match mod2_boundary ls with
      | [c] => Some (Point c)
      | cs => Some (MultiPoint cs)
      end
  | Polygon [] => Some (MultiLineString [])
  | Polygon [shell] => Some (LineString shell)
  | Polygon rings => Some (MultiLineString rings)
  | MultiPolygon ps => Some (MultiLineString (concat ps))
  | GeometryCollection _ => None
  end.

End Shapely.

(** ** geopandas: a table of features *)

Module Gpd.

Import Shapely.

(** A row: the values of the non-geometry columns and the geometry, which
    may be missing. *)
Record feature : Type := {
  properties : list (string * string);
  geometry_of : option geometry
}.

(** An index label has one component per level of the index. *)
Definition label : Type := list nat.

Definition GeoDataFrame : Type := list (label * feature).

(** A frame as [read_file] builds it, on the index 0, 1, 2, ... *)
Definition of_features (fs : list feature) : GeoDataFrame :=
  imap (fun i f => ([i], f)) fs.

Definition features (gdf : GeoDataFrame) : list feature := map snd gdf.

(** The rows that [explode] makes of one row: one per part of the
    geometry, with the values of the other columns repeated and the
    number of the part appended to the label.  A missing geometry and a
    geometry without parts give no row. *)
Definition explode_row (r : label * feature) : GeoDataFrame :=
  match geometry_of (snd r) with
  | None => []
  | Some g =>
      imap (fun k part =>
              (fst r ++ [k],
               {| properties := properties (snd r); geometry_of := Some part |}))
           (get_parts g)
  end.

(** [gdf.explode(index_parts=True)]. *)
Definition explode (gdf : GeoDataFrame) : GeoDataFrame :=
  flat_map explode_row gdf.

(** [gdf.reset_index(drop=True)]. *)
Definition reset_index (gdf : GeoDataFrame) : GeoDataFrame :=
  of_features (features gdf).

(** [gdf["geometry"] = gdf.boundary]. *)
Definition set_boundary (gdf : GeoDataFrame) : GeoDataFrame :=
  map (fun r =>
         (fst r,
          {| properties := properties (snd r);
             geometry_of := geometry_of (snd r) ≫= boundary |}))
      gdf.

End Gpd.

(** ** The file system and the collaborators *)

Module Os.

(** A path is the list of its components ([Path.parts]); [[]] is the
    current directory. *)
Definition path : Type := list string.

(** [Path.parent]. *)
Definition parent (p : path) : path := removelast p.

(** The dictionary that [geotiff_to_json] serialises. *)
Record output_data : Type := {
  heights : list (list float);
  lats : list float;
  lons : list float;
  minHeight : float;
  maxHeight : float;
  shape : list nat
}.

(** What a path holds: a directory, or a file by its decoded content. *)
Inductive node : Type :=
| Dir
| GeoTIFF (raster : Xr.DataArray)
| Json (data : output_data)
| GeoJSON (fs : list Gpd.feature).

(** The state of the file system: the paths that exist. *)
Abbreviation world := (gmap path node).

(** What a writer did with a file: stored it, returned without storing it,
    or raised. *)
Inductive write_outcome : Type :=
| Stored
| Lost
| Fault (e : exn).

(** The collaborators the pipeline does not implement:
    - the gravity model and the synthesis of the geoid grid
      ([pysh.datasets.Earth.EGM2008(lmax)], [clm.geoid(...)],
      [to_xarray()]);
    - the retrieval and decoding of a feature source ([gpd.read_file]);
    - the writers of files ([to_raster], [open]/[json.dump],
      [to_file]). *)
Record env : Type := {
  EGM2008_geoid : Z -> result Xr.DataArray;
  read_file : string -> result (list Gpd.feature);
  writer : path -> node -> write_outcome
}.

(** Computations that read and change the file system and may raise. *)
Definition M (A : Type) : Type := world -> result (A * world).

Global Instance M_ret : MRet M := fun A a w => Ok (a, w).
Global Instance M_bind : MBind M := fun A B f m w =>
  match m w with
  | Ok (a, w') => f a w'
  | Raise e => Raise e
  end.

Definition raise {A} (e : exn) : M A := fun _ => Raise e.
Definition lift {A} (r : result A) : M A := fun w =>
  match r with
  | Ok a => Ok (a, w)
  | Raise e => Raise e
  end.

(** [Path.exists] and [Path.stat]. *)
Definition exists_ (p : path) : M bool := fun w =>
  Ok (bool_decide (is_Some (w !! p)), w).
Definition stat (p : path) : M unit := fun w =>
  match w !! p with
  | Some _ => Ok (tt, w)
  | None => Raise FileNotFoundError
  end.

(** [Path.mkdir(parents=True, exist_ok=True)]: every missing prefix of the
    path becomes a directory. *)
Definition mkdir1 (final : bool) (q : path) : M unit := fun w =>
  match w !! q with
  | None => Ok (tt, <[q := Dir]> w)
  | Some Dir => Ok (tt, w)
  | Some _ => Raise (if final then FileExistsError else NotADirectoryError)
  end.

Fixpoint mkdir_from (above rest : path) : M unit :=
  match rest with
  | [] => mret tt
  | c :: rest' =>
      mkdir1 (bool_decide (rest' = [])) (above ++ [c]);;
      mkdir_from (above ++ [c]) rest'
  end.

Definition mkdir (d : path) : M unit := mkdir_from [] d.

(** Writing a file through one of the writers of [env]. *)
Definition write (E : env) (p : path) (n : node) : M unit := fun w =>
  match writer E p n with
  | Stored => Ok (tt, <[p := n]> w)
  | Lost => Ok (tt, w)
  | Fault e => Raise e
  end.

(** [rioxarray.open_rasterio]. *)
Definition open_rasterio (p : path) : M Xr.DataArray := fun w =>
  match w !! p with
  | Some (GeoTIFF r) => Ok (r, w)
  | _ => Raise RasterioIOError
  end.

End Os.
Export Os.

(** ** generate_geoid.py *)

Section generate_geoid.

Context (E : env).
Local Open Scope float_scope.

(** [array.rio.to_raster(output_path)]; tagging the grid with its
    reference system and the names of its axes does not change it. *)
Definition to_raster (array : Xr.DataArray) (output_path : path) : M unit :=
  write E output_path (GeoTIFF array).

Definition save_geoid_as_geotiff (array : Xr.DataArray) (output_path : path)
  : M unit :=
  mkdir (parent output_path);;
  to_raster array output_path.

(** [np.where(lon_values > 180, lon_values - 360, lon_values)]. *)
Definition recenter (lon_values : list float) : list float :=
  map (fun lon => if 180 <? lon then lon - 360 else lon) lon_values.

Definition generate_geoid (lmax : Z) (output_path : path) : M unit :=
  array ← lift (EGM2008_geoid E lmax);
  let lon_values := Xr.longitude array in
  let new_lon_values := recenter lon_values in
  let new_array := Xr.assign_longitude new_lon_values array in
  let new_array := Xr.sortby_longitude new_array in
  save_geoid_as_geotiff new_array output_path.

End generate_geoid.

(** ** convert_raster_to_json.py *)

Section convert_raster_to_json.

Context (E : env).

(** [with open(output_path, "w") as f: json.dump(output_data, f)]. *)
Definition json_dump (data : output_data) (output_path : path) : M unit :=
  write E output_path (Json data).

(** The messages that are logged evaluate [lats.min()], [lats.max()],
    [lons.min()] and [lons.max()], which raise on an empty axis. *)
Definition geotiff_to_json (input_path output_path : path) (downsample : Z)
  : M output_data :=
  raster ← open_rasterio input_path;
  data ← lift (Np.getitem_step2 downsample (Xr.values raster));
  lats ← lift (Np.getitem_step downsample (Xr.latitude raster));
  lons ← lift (Np.getitem_step downsample (Xr.longitude raster));
  min_val ← lift (Np.nanmin data);
  max_val ← lift (Np.nanmax data);
  lift (Np.amin lats);; lift (Np.amax lats);;
  lift (Np.amin lons);; lift (Np.amax lons);;
  let output_data :=
    {| heights := Np.tolist data;
       lats := lats;
       lons := lons;
       minHeight := min_val;
       maxHeight := max_val;
       shape := Np.shape_list data |} in
  json_dump output_data output_path;;
  stat output_path;;
  mret output_data.

End convert_raster_to_json.

(** ** clean_world_geojson.py *)

Section clean_world_geojson.

Context (E : env).

(** [gdf.to_file(output_path, driver="GeoJSON")]: the features are
    written, the index is not. *)
Definition to_file (gdf : Gpd.GeoDataFrame) (output_path : path) : M unit :=
  write E output_path (GeoJSON (Gpd.features gdf)).

Definition clean_world_geojson (source_url : string) (output_path : path)
  : M Gpd.GeoDataFrame :=
  loaded ← lift (read_file E source_url);
  let gdf := Gpd.of_features loaded in
  let gdf_exploded := Gpd.reset_index (Gpd.explode gdf) in
  let gdf_exploded := Gpd.set_boundary gdf_exploded in
  let gdf_linestrings := Gpd.reset_index (Gpd.explode gdf_exploded) in
  to_file gdf_linestrings output_path;;
  stat output_path;;
  mret gdf_linestrings.

End clean_world_geojson.

(** ** pipeline.py *)

Record PipelineConfig : Type := {
  lmax : Z;
  downsample : Z;
  geotiff_path : path;
  json_path : path;
  world_geojson_url : string;
  world_boundaries_path : path
}.

(** The default values of the fields. *)
Definition default_config : PipelineConfig :=
  {| lmax := 800;
     downsample := 1;
     geotiff_path := ["data"; "egm2008_geoid_heights.tif"];
     json_path := ["public"; "data"; "egm2008_geoid_heights.json"];
     world_geojson_url :=
       "https://raw.githubusercontent.com/holtzy/D3-graph-gallery/master/DATA/world.geojson";
     world_boundaries_path := ["public"; "data"; "world_boundaries.json"] |}.

(** The constraints declared on the fields: [lmax] has [ge=1, le=2160] and
    [downsample] has [ge=1]. *)
Definition field_constraints (c : PipelineConfig) : bool :=
  ((1 <=? lmax c)%Z && (lmax c <=? 2160)%Z) && (1 <=? downsample c)%Z.

(** Building a [PipelineConfig] from field values: pydantic checks the
    constraints and raises when one is violated. *)
Definition PipelineConfig_init (c : PipelineConfig) : result PipelineConfig :=
  if field_constraints c then Ok c else Raise ValidationError.

Section pipeline.

Context (E : env).

(** [if not p.exists(): raise FileNotFoundError(...)]. *)
Definition require_exists (p : path) : M unit :=
  found ← exists_ p;
  if negb found then raise FileNotFoundError else mret tt.

Definition run_pipeline (config : PipelineConfig) : M unit :=
  let geotiff_path := geotiff_path config in
  let json_path := json_path config in
  (* Ensure directories exist *)
  mkdir (parent geotiff_path);;
  mkdir (parent json_path);;
  mkdir (parent (world_boundaries_path config));;
  (* Step 1: Generate geoid GeoTIFF *)
  generate_geoid E (lmax config) geotiff_path;;
  require_exists geotiff_path;;
  (* Step 2: Convert GeoTIFF to JSON *)
  geotiff_to_json E geotiff_path json_path (downsample config);;
  require_exists json_path;;
  (* Step 3: Convert world GeoJSON polygons to LineStrings *)
  clean_world_geojson E (world_geojson_url config) (world_boundaries_path config);;
  require_exists (world_boundaries_path config);;
  mret tt.

(** [main] builds the configuration from the defaults and re-raises what
    [run_pipeline] raises. *)
Definition main : M unit :=
  config ← lift (PipelineConfig_init default_config);
  run_pipeline config.

End pipeline.

(** ** The vocabulary of the specification *)

Module Spec.

Import Shapely Gpd.

(** The ceiling of [n / k]: the least [q] with [n <= q * k]
    (lemma [ceil_div_le]). *)
Definition ceil_div (n k : nat) : nat := (n + (k - 1)) / k.

(** A cell of a grid given by its rows. *)
Definition cell {A} (grid : list (list A)) (i j : nat) : option A :=
  grid !! i ≫= fun row => row !! j.

(** The grid has [n] rows of [m] cells. *)
Definition has_dims {A} (grid : list (list A)) (n m : nat) : Prop :=
  length grid = n /\ Forall (fun row => length row = m) grid.

Definition is_LineString (f : feature) : Prop :=
  exists cs, geometry_of f = Some (LineString cs).

Definition is_polygonal (f : feature) : Prop :=
  (exists rings, geometry_of f = Some (Polygon rings)) \/
  (exists ps, geometry_of f = Some (MultiPolygon ps)).

(** The single polygons obtained by exploding a feature, each given by
    its rings. *)
Definition single_polygons (f : feature) : list (list (list position)) :=
  match geometry_of f with
  | Some (Polygon rings) => [rings]
  | Some (MultiPolygon ps) => ps
  | _ => []
  end.

(** The number of rings of a collection: over all its single polygons,
    the exterior ring and the holes. *)
Definition ring_count (fs : list feature) : nat :=
  sum_list_with (fun rings : list (list position) => length rings) (flat_map single_polygons fs).

(** A feature with the properties of [f] and the geometry [g]. *)
Definition with_geometry (f : feature) (g : geometry) : feature :=
  {| properties := properties f; geometry_of := Some g |}.

(** One LineString feature per ring of the single polygons of [f], with
    the properties of [f]. *)
Definition rings_as_lines (f : feature) : list feature :=
  map (fun ring => with_geometry f (LineString ring))
      (concat (single_polygons f)).

Definition is_Point (f : feature) : Prop :=
  exists c, geometry_of f = Some (Point c).

(** What is left of a LineString feature: nothing when the line is closed
    or empty, its two end points otherwise. *)
Definition line_ends (f : feature) : list feature :=
  match geometry_of f with
  | Some (LineString cs) =>
      if is_closed cs then []
      else map (fun c => with_geometry f (Point c)) (end_points cs)
  | _ => []
  end.

(** The features that exploding makes of [f], and [f] with its geometry
    replaced by its boundary. *)
Definition parts_of (f : feature) : list feature :=
  match geometry_of f with
  | None => []
  | Some g => map (with_geometry f) (get_parts g)
  end.

Definition boundary_of (f : feature) : feature :=
  {| properties := properties f;
     geometry_of := geometry_of f ≫= boundary |}.

(** What the decomposition makes of [f]: the parts of the boundaries of
    the parts of [f]. *)
Definition pieces (f : feature) : list feature :=
  flat_map (fun p => parts_of (boundary_of p)) (parts_of f).

(** The index 0, 1, ..., n-1. *)
Definition flat_index (n : nat) : list label := map (fun i => [i]) (seq 0 n).

(** A longitude in the interval [-180, 180). *)
Definition in_range (lon : float) : bool :=
  ((-180 <=? lon) && (lon <? 180))%float.

(** Every path of [w] still exists in [w']. *)
Definition extends (w w' : world) : Prop :=
  forall p, is_Some (w !! p) -> is_Some (w' !! p).

End Spec.

(** ** Sample inputs *)

Module Examples.

Import Shapely Gpd.
Local Open Scope float_scope.

(** A raster of 4 rows and 4 columns with one cell without data. *)
Definition raster_4x4 : Xr.DataArray :=
  {| Xr.values :=
       {| Np.shape := (4%nat, 4%nat);
          Np.rows := [[ 0;  1;  2;  3];
                      [10; 11; 12; 13];
                      [20; 21; nan; 23];
                      [30; 31; 32; 33]] |};
     Xr.latitude := [90; 30; -30; -90];
     Xr.longitude := [-180; -90; 0; 90] |}.

(** A grid as the synthesis returns it at degree 1: 4 latitudes and the
    8 longitudes 0, 45, ..., 315. *)
Definition geoid_degree1 : Xr.DataArray :=
  {| Xr.values :=
       {| Np.shape := (4%nat, 8%nat);
          Np.rows := [[ 1;  2;  3;  4;  5;  6;  7;  8];
                      [11; 12; 13; 14; 15; 16; 17; 18];
                      [21; 22; 23; 24; 25; 26; 27; 28];
                      [31; 32; 33; 34; 35; 36; 37; 38]] |};
     Xr.latitude := [90; 45; 0; -45];
     Xr.longitude := [0; 45; 90; 135; 180; 225; 270; 315] |}.

Definition square : list position := [(0, 0); (4, 0); (4, 4); (0, 4); (0, 0)].
Definition hole : list position := [(1, 1); (2, 1); (2, 2); (1, 1)].
Definition far_square : list position :=
  [(10, 10); (11, 10); (11, 11); (10, 11); (10, 10)].

Definition holed_polygon : feature :=
  {| properties := [("name", "A")];
     geometry_of := Some (Polygon [square; hole]) |}.

Definition two_squares : feature :=
  {| properties := [("name", "B")];
     geometry_of := Some (MultiPolygon [[square]; [far_square]]) |}.

Definition open_line : feature :=
  {| properties := [("name", "C")];
     geometry_of := Some (LineString [(0, 0); (1, 1)]) |}.

(** Collaborators that synthesise [geoid_degree1], read the features
    [fs] and store every file. *)
Definition env_reading (fs : list feature) : env :=
  {| EGM2008_geoid := fun _ => Ok geoid_degree1;
     read_file := fun _ => Ok fs;
     writer := fun _ _ => Stored |}.

Definition tif : path := ["geoid.tif"].
Definition json : path := ["geoid.json"].
Definition lines_json : path := ["lines.json"].

(** A configuration with a stride below 1. *)
Definition stride_0 : PipelineConfig :=
  {| lmax := 800; downsample := 0;
     geotiff_path := tif; json_path := json;
     world_geojson_url := "world.geojson";
     world_boundaries_path := lines_json |}.

End Examples.

(** ** More sample inputs *)

Module Cases.

Import Shapely Gpd Examples.
Local Open Scope float_scope.

(** A raster without rows. *)
Definition raster_0x0 : Xr.DataArray :=
  {| Xr.values := {| Np.shape := (0%nat, 0%nat); Np.rows := [] |};
     Xr.latitude := [];
     Xr.longitude := [] |}.

(** A raster of one row whose cells hold no datum. *)
Definition raster_nan : Xr.DataArray :=
  {| Xr.values := {| Np.shape := (1%nat, 2%nat); Np.rows := [[nan; nan]] |};
     Xr.latitude := [0];
     Xr.longitude := [0; 90] |}.

(** Collaborators whose writers return without storing anything. *)
Definition env_losing : env :=
  {| EGM2008_geoid := fun _ => Ok geoid_degree1;
     read_file := fun _ => Ok [];
     writer := fun _ _ => Lost |}.

(** The rings of [holed_polygon] as they are written. *)
Definition rings : list feature :=
  [{| properties := [("name", "A")]; geometry_of := Some (LineString square) |};
   {| properties := [("name", "A")]; geometry_of := Some (LineString hole) |}].

(** Collaborators that read [rings] from "rings.geojson" and
    [holed_polygon] from any other source, and store every file. *)
Definition env_rereading : env :=
  {| EGM2008_geoid := fun _ => Ok geoid_degree1;
     read_file := fun url =>
       if String.eqb url "rings.geojson" then Ok rings else Ok [holed_polygon];
     writer := fun _ _ => Stored |}.

Definition point_feature : feature :=
  {| properties := [("name", "P")]; geometry_of := Some (Point (1, 2)) |}.

Definition no_geometry : feature :=
  {| properties := [("name", "N")]; geometry_of := None |}.


End Cases.

(** * Properties *)

(** ** The order of binary64 values

    [x <=? y] is false as soon as one side is NaN.  On the other values it
    is a total preorder; this is read off the specification [SFcompare] of
    the primitive comparison. *)

Section float_order.

Import F64.
Local Open Scope float_scope.

Lemma SFleb_trans x y z :
  SFleb x y = true -> SFleb y z = true -> SFleb x z = true.
Proof.
  unfold SFleb.
  destruct x as [s1|s1| |s1 m1 e1], y as [s2|s2| |s2 m2 e2],
           z as [s3|s3| |s3 m3 e3];
    simpl; try discriminate; try reflexivity;
    repeat match goal with s : bool |- _ => destruct s end; simpl;
    try discriminate; try reflexivity; try (intros; assumption).
  all: fold (Pos.compare m1 m2) (Pos.compare m2 m3) (Pos.compare m1 m3).
  all: destruct (Z.compare_spec e1 e2), (Z.compare_spec e2 e3),
         (Z.compare_spec e1 e3);
       try lia; try discriminate; try reflexivity; subst;
       destruct (Pos.compare_spec m1 m2), (Pos.compare_spec m2 m3),
         (Pos.compare_spec m1 m3);
       simpl; try lia; try discriminate; try reflexivity.
Qed.

Lemma SFleb_total x y :
  x <> S754_nan -> y <> S754_nan -> SFleb x y = true \/ SFleb y x = true.
Proof.
  unfold SFleb.
  destruct x as [s1|s1| |s1 m1 e1], y as [s2|s2| |s2 m2 e2];
    simpl; try congruence;
    repeat match goal with s : bool |- _ => destruct s end; simpl; auto.
  all: fold (Pos.compare m1 m2) (Pos.compare m2 m1).
  all: intros _ _; destruct (Z.compare_spec e1 e2), (Z.compare_spec e2 e1);
       try lia; auto; subst;
       destruct (Pos.compare_spec m1 m2), (Pos.compare_spec m2 m1);
       simpl; try lia; auto.
Qed.

Lemma SFeqb_refl x : x <> S754_nan -> SFeqb x x = true.
Proof.
  unfold SFeqb.
  destruct x as [s|s| |s m e]; simpl; try congruence; intros _;
    destruct s; try reflexivity;
    rewrite Z.compare_refl, Pos.compare_cont_refl; reflexivity.
Qed.

Lemma SFleb_refl x : x <> S754_nan -> SFleb x x = true.
Proof.
  intros H. apply SFeqb_refl in H. unfold SFeqb, SFleb in *.
  destruct (SFcompare x x) as [[]|]; congruence.
Qed.

Lemma isnan_spec x : isnan x = true <-> Prim2SF x = S754_nan.
Proof.
  unfold isnan. rewrite FloatAxioms.eqb_spec. split.
  - intros H. destruct (Prim2SF x) eqn:E; try reflexivity;
      rewrite SFeqb_refl in H by congruence; discriminate.
  - intros ->. reflexivity.
Qed.

Lemma isnan_false x : isnan x = false <-> Prim2SF x <> S754_nan.
Proof.
  pose proof (isnan_spec x) as [H1 H2].
  destruct (isnan x); split; intros H.
  - discriminate.
  - elim H. auto.
  - intros E. specialize (H2 E). discriminate.
  - reflexivity.
Qed.

Lemma leb_refl x : isnan x = false -> (x <=? x) = true.
Proof. rewrite isnan_false, FloatAxioms.leb_spec. apply SFleb_refl. Qed.

Lemma leb_trans x y z :
  (x <=? y) = true -> (y <=? z) = true -> (x <=? z) = true.
Proof. rewrite !FloatAxioms.leb_spec. apply SFleb_trans. Qed.

Lemma leb_total x y :
  isnan x = false -> isnan y = false ->
  (x <=? y) = true \/ (y <=? x) = true.
Proof. rewrite !isnan_false, !FloatAxioms.leb_spec. apply SFleb_total. Qed.

Lemma leb_not_nan x y :
  (x <=? y) = true -> isnan x = false /\ isnan y = false.
Proof.
  rewrite FloatAxioms.leb_spec, !isnan_false. unfold SFleb.
  destruct (Prim2SF x), (Prim2SF y); simpl; try discriminate;
    split; congruence.
Qed.

End float_order.

(** ** Strided slices *)

Section strided.

Import Spec.
Context {A : Type}.
Implicit Types l : list A.

Lemma ceil_div_le n k q : 0 < k -> ceil_div n k <= q <-> n <= q * k.
Proof.
  intros Hk. unfold ceil_div.
  pose proof (Nat.div_mod_eq (n + (k - 1)) k) as Hd.
  pose proof (Nat.mod_upper_bound (n + (k - 1)) k ltac:(lia)) as Hm.
  split; intros H; nia.
Qed.

Lemma every_lookup gap skip l i :
  Np.every gap skip l !! i = l !! (skip + i * S gap).
Proof.
  revert skip i. induction l as [|x t IH]; intros skip i; simpl.
  - reflexivity.
  - destruct skip as [|s].
    + destruct i as [|i]; simpl; [reflexivity|]. apply IH.
    + simpl. apply IH.
Qed.

Lemma every_length gap l :
  length (Np.every gap 0 l) = ceil_div (length l) (S gap).
Proof.
  set (e := Np.every gap 0 l).
  assert (Hi : forall i, i < length e <-> i * S gap < length l).
  { intros i. rewrite <- !lookup_lt_is_Some. unfold e.
    rewrite every_lookup. reflexivity. }
  pose proof (ceil_div_le (length l) (S gap)) as Hc.
  apply Nat.le_antisymm.
  - destruct (Nat.le_gt_cases (length e) (ceil_div (length l) (S gap)))
      as [|Hlt]; [assumption|].
    apply Hi in Hlt.
    pose proof (proj1 (Hc (ceil_div (length l) (S gap)) ltac:(lia))
                  (Nat.le_refl _)). lia.
  - apply Hc; [lia|].
    destruct (Nat.le_gt_cases (length l) (length e * S gap))
      as [|Hlt]; [assumption|].
    apply Hi in Hlt. lia.
Qed.

Lemma strided_lookup k l i :
  (1 <= k)%Z -> Np.strided k l !! i = l !! (i * Z.to_nat k).
Proof.
  intros Hk. unfold Np.strided.
  destruct (Z.ltb_spec 0 k); [|lia].
  rewrite every_lookup.
  replace (S (Z.to_nat k - 1)) with (Z.to_nat k) by lia.
  reflexivity.
Qed.

Lemma strided_length k l :
  (1 <= k)%Z -> length (Np.strided k l) = ceil_div (length l) (Z.to_nat k).
Proof.
  intros Hk. unfold Np.strided.
  destruct (Z.ltb_spec 0 k); [|lia].
  rewrite every_length.
  replace (S (Z.to_nat k - 1)) with (Z.to_nat k) by lia.
  reflexivity.
Qed.

Lemma slice_len_ceil n k :
  (1 <= k)%Z -> Np.slice_len n k = ceil_div n (Z.to_nat k).
Proof.
  intros Hk. unfold Np.slice_len, ceil_div.
  rewrite Z.abs_eq by lia.
  destruct n as [|m].
  - symmetry. apply Nat.div_small. lia.
  - replace (S m + (Z.to_nat k - 1)) with (m + 1 * Z.to_nat k) by lia.
    rewrite Nat.div_add by lia. reflexivity.
Qed.

End strided.

(** ** Running a computation *)

Section running.

Context {A B : Type}.

Lemma bind_Ok (m : M A) (f : A -> M B) w b w' :
  (m ≫= f) w = Ok (b, w') <->
  exists a w1, m w = Ok (a, w1) /\ f a w1 = Ok (b, w').
Proof.
  unfold mbind, M_bind. destruct (m w) as [[a w1]|e]; split.
  - eauto.
  - intros (? & ? & [= <- <-] & ?); assumption.
  - discriminate.
  - intros (? & ? & [=] & ?).
Qed.

Lemma bind_Raise (m : M A) (f : A -> M B) w e :
  (m ≫= f) w = Raise e <->
  m w = Raise e \/ exists a w1, m w = Ok (a, w1) /\ f a w1 = Raise e.
Proof.
  unfold mbind, M_bind. destruct (m w) as [[a w1]|e']; split.
  - intros H. right. exists a, w1. split; [reflexivity|assumption].
  - intros [[=]|(? & ? & [= <- <-] & ?)]; assumption.
  - intros [= ->]. left. reflexivity.
  - intros [[= ->]|(? & ? & [=] & ?)]. reflexivity.
Qed.

Lemma bind_run (m : M A) (f : A -> M B) w a w1 :
  m w = Ok (a, w1) -> (m ≫= f) w = f a w1.
Proof. unfold mbind, M_bind. intros ->. reflexivity. Qed.

Lemma bind_fail (m : M A) (f : A -> M B) w e :
  m w = Raise e -> (m ≫= f) w = Raise e.
Proof. unfold mbind, M_bind. intros ->. reflexivity. Qed.

Lemma lift_Ok (r : result A) w a w' :
  lift r w = Ok (a, w') <-> r = Ok a /\ w' = w.
Proof.
  unfold lift. destruct r as [x|e]; split.
  - intros [= <- <-]. auto.
  - intros [[= <-] ->]. reflexivity.
  - discriminate.
  - intros [[=] _].
Qed.

Lemma ret_Ok (a : A) w a' w' :
  (mret a : M A) w = Ok (a', w') <-> a' = a /\ w' = w.
Proof.
  unfold mret, M_ret. split; [intros [= <- <-]|intros [-> ->]]; auto.
Qed.

End running.

Lemma stat_Ok p w u w' : stat p w = Ok (u, w') <-> is_Some (w !! p) /\ w' = w.
Proof.
  unfold stat. destruct (w !! p); split.
  - intros [= <- <-]; eauto.
  - intros [_ ->]. destruct u; reflexivity.
  - discriminate.
  - intros [[? [=]] _].
Qed.

Lemma write_Ok E p n w u w' :
  write E p n w = Ok (u, w') <->
  (writer E p n = Stored /\ w' = <[p := n]> w) \/
  (writer E p n = Lost /\ w' = w).
Proof.
  unfold write. destruct (writer E p n), u; split;
    first [ intros [= <-]; auto | intros [[? ->]|[? ->]]; congruence
          | discriminate ].
Qed.

Lemma open_rasterio_Ok p w r w' :
  open_rasterio p w = Ok (r, w') <-> w !! p = Some (GeoTIFF r) /\ w' = w.
Proof.
  unfold open_rasterio. destruct (w !! p) as [[]|]; split;
    first [ discriminate | intros [= <- <-]; auto
          | intros [[= <-] ->]; reflexivity | intros [[=] _] ].
Qed.

Lemma require_exists_Ok p w u w' :
  require_exists p w = Ok (u, w') <-> is_Some (w !! p) /\ w' = w.
Proof.
  unfold require_exists, exists_, raise.
  cbv beta iota delta [mbind M_bind mret M_ret].
  destruct (decide (is_Some (w !! p))) as [H|H].
  - rewrite bool_decide_eq_true_2 by assumption. simpl. split.
    + intros [= <- <-]. auto.
    + intros [_ ->]. destruct u. reflexivity.
  - rewrite bool_decide_eq_false_2 by assumption. simpl. split.
    + discriminate.
    + intros [? _]. contradiction.
Qed.

Lemma require_exists_missing p w :
  w !! p = None -> require_exists p w = Raise FileNotFoundError.
Proof.
  intros H. unfold require_exists, exists_, raise.
  cbv beta iota delta [mbind M_bind mret M_ret].
  rewrite bool_decide_eq_false_2; [reflexivity|].
  rewrite H. intros [? [=]].
Qed.

Lemma require_exists_found p w :
  is_Some (w !! p) -> require_exists p w = Ok (tt, w).
Proof. intros H. apply require_exists_Ok. auto. Qed.

(** [inv_run H] splits a successful run [H : c w = Ok (a, w')] of a sequence
    of steps into the runs of its steps. *)
Ltac inv_run H :=
  repeat match type of H with
  | (_ ≫= _) _ = Ok _ =>
      let H1 := fresh "Hrun" in
      apply bind_Ok in H as (? & ? & H1 & H); inv_run H1
  | lift _ _ = Ok _ => apply lift_Ok in H as [H ->]
  | @mret M _ _ _ _ = Ok _ => apply ret_Ok in H as [? ?]; subst
  | stat _ _ = Ok _ => apply stat_Ok in H as [H ->]
  | open_rasterio _ _ = Ok _ => apply open_rasterio_Ok in H as [H ->]
  | require_exists _ _ = Ok _ => apply require_exists_Ok in H as [H ->]
  end.

(** ** NaN-aware extrema *)

Section extrema.

Import F64.
Local Open Scope float_scope.

Lemma fmin_cases x y :
  (Np.fmin x y = x /\ (isnan y = true \/ (x <=? y) = true)) \/
  (Np.fmin x y = y /\ isnan y = false /\ (x <=? y) = false).
Proof.
  unfold Np.fmin. destruct (x <=? y) eqn:Hle, (isnan y) eqn:Hy; simpl; auto.
Qed.

Lemma fmax_cases x y :
  (Np.fmax x y = x /\ (isnan y = true \/ (y <=? x) = true)) \/
  (Np.fmax x y = y /\ isnan y = false /\ (y <=? x) = false).
Proof.
  unfold Np.fmax. destruct (y <=? x) eqn:Hle, (isnan y) eqn:Hy; simpl; auto.
Qed.

(** One step of the reduction keeps a lower bound of the values seen. *)
Lemma fmin_step (seen : float -> Prop) acc y :
  (forall v, seen v -> isnan v = false -> (acc <=? v) = true) ->
  forall v, seen v \/ v = y -> isnan v = false ->
            (Np.fmin acc y <=? v) = true.
Proof.
  intros Hacc v Hv Hnan.
  destruct (fmin_cases acc y) as [[-> Hc]|(-> & Hy & Hle)].
  - destruct Hv as [Hv| ->]; [auto|].
    destruct Hc as [Hc|Hc]; [congruence|assumption].
  - destruct Hv as [Hv| ->]; [|apply leb_refl; assumption].
    specialize (Hacc v Hv Hnan).
    destruct (leb_not_nan _ _ Hacc) as [Ha _].
    destruct (leb_total acc y Ha Hy) as [H|H]; [congruence|].
    eapply leb_trans; eassumption.
Qed.

Lemma fmax_step (seen : float -> Prop) acc y :
  (forall v, seen v -> isnan v = false -> (v <=? acc) = true) ->
  forall v, seen v \/ v = y -> isnan v = false ->
            (v <=? Np.fmax acc y) = true.
Proof.
  intros Hacc v Hv Hnan.
  destruct (fmax_cases acc y) as [[-> Hc]|(-> & Hy & Hle)].
  - destruct Hv as [Hv| ->]; [auto|].
    destruct Hc as [Hc|Hc]; [congruence|assumption].
  - destruct Hv as [Hv| ->]; [|apply leb_refl; assumption].
    specialize (Hacc v Hv Hnan).
    destruct (leb_not_nan _ _ Hacc) as [_ Ha].
    destruct (leb_total y acc Hy Ha) as [H|H]; [congruence|].
    eapply leb_trans; eassumption.
Qed.

Lemma fold_fmin_lower t : forall (seen : float -> Prop) acc,
  (forall v, seen v -> isnan v = false -> (acc <=? v) = true) ->
  forall v, seen v \/ In v t -> isnan v = false ->
            (fold_left Np.fmin t acc <=? v) = true.
Proof.
  induction t as [|y t IH]; intros seen acc Hacc v Hv Hnan; simpl.
  - destruct Hv as [Hv|[]]. auto.
  - apply (IH (fun u => seen u \/ u = y));
      [|destruct Hv as [?|[->|?]]; auto|assumption].
    apply fmin_step. assumption.
Qed.

Lemma fold_fmax_upper t : forall (seen : float -> Prop) acc,
  (forall v, seen v -> isnan v = false -> (v <=? acc) = true) ->
  forall v, seen v \/ In v t -> isnan v = false ->
            (v <=? fold_left Np.fmax t acc) = true.
Proof.
  induction t as [|y t IH]; intros seen acc Hacc v Hv Hnan; simpl.
  - destruct Hv as [Hv|[]]. auto.
  - apply (IH (fun u => seen u \/ u = y));
      [|destruct Hv as [?|[->|?]]; auto|assumption].
    apply fmax_step. assumption.
Qed.

(** A reduction by an operation that returns one of its operands returns
    one of the elements. *)
Lemma fold_pick (op : float -> float -> float) t :
  (forall x y, op x y = x \/ op x y = y) ->
  forall acc, In (fold_left op t acc) (acc :: t).
Proof.
  intros Hop. induction t as [|y t IH]; intros acc; simpl.
  - auto.
  - destruct (IH (op acc y)) as [H|H]; [|right; right; exact H].
    rewrite <- H.
    destruct (Hop acc y) as [E|E]; rewrite E;
      [left|right; left]; reflexivity.
Qed.

Lemma nanmin_spec a m :
  Np.nanmin a = Ok m ->
  In m (concat (Np.rows a)) /\
  forall v, In v (concat (Np.rows a)) -> isnan v = false ->
            (m <=? v) = true.
Proof.
  unfold Np.nanmin, Np.reduce. destruct (concat (Np.rows a)) as [|x t];
    [discriminate|]. intros [= <-]. split.
  - apply fold_pick. intros p q. destruct (fmin_cases p q); tauto.
  - intros v Hv Hnan.
    apply (fold_fmin_lower t (fun u => u = x));
      [|destruct Hv as [->|?]; auto|assumption].
    intros u -> Hu. apply leb_refl. assumption.
Qed.

Lemma nanmax_spec a m :
  Np.nanmax a = Ok m ->
  In m (concat (Np.rows a)) /\
  forall v, In v (concat (Np.rows a)) -> isnan v = false ->
            (v <=? m) = true.
Proof.
  unfold Np.nanmax, Np.reduce. destruct (concat (Np.rows a)) as [|x t];
    [discriminate|]. intros [= <-]. split.
  - apply fold_pick. intros p q. destruct (fmax_cases p q); tauto.
  - intros v Hv Hnan.
    apply (fold_fmax_upper t (fun u => u = x));
      [|destruct Hv as [->|?]; auto|assumption].
    intros u -> Hu. apply leb_refl. assumption.
Qed.

End extrema.

(** ** Grids *)

Section grids.

Import Spec.
Context {A : Type}.

Lemma cell_In (grid : list (list A)) v :
  In v (concat grid) <-> exists i j, cell grid i j = Some v.
Proof.
  unfold cell. rewrite in_concat. split.
  - intros (row & Hrow & Hv).
    apply list_elem_of_In in Hrow, Hv.
    apply list_elem_of_lookup in Hrow as [i Hi].
    apply list_elem_of_lookup in Hv as [j Hj].
    exists i, j. rewrite Hi. simpl. assumption.
  - intros (i & j & H).
    destruct (grid !! i) as [row|] eqn:Hi; [|discriminate].
    simpl in H. exists row.
    split; apply list_elem_of_In; eapply list_elem_of_lookup_2; eassumption.
Qed.

Lemma strided_cell k (grid : list (list A)) i j :
  (1 <= k)%Z ->
  cell (map (Np.strided k) (Np.strided k grid)) i j =
  cell grid (i * Z.to_nat k) (j * Z.to_nat k).
Proof.
  intros Hk. unfold cell.
  rewrite list_lookup_fmap, strided_lookup by assumption.
  destruct (grid !! (i * Z.to_nat k)) as [row|]; simpl; [|reflexivity].
  apply strided_lookup. assumption.
Qed.

Lemma strided_dims k (grid : list (list A)) n m :
  (1 <= k)%Z -> has_dims grid n m ->
  has_dims (map (Np.strided k) (Np.strided k grid))
           (ceil_div n (Z.to_nat k)) (ceil_div m (Z.to_nat k)).
Proof.
  intros Hk [Hn Hm]. split.
  - rewrite length_map, strided_length by assumption. congruence.
  - apply Forall_forall. intros row Hrow.
    apply list_elem_of_fmap in Hrow as (row0 & -> & Hrow0).
    rewrite strided_length by assumption. f_equal.
    rewrite Forall_forall in Hm. apply Hm.
    apply list_elem_of_lookup in Hrow0 as [i Hi].
    rewrite strided_lookup in Hi by assumption.
    eapply list_elem_of_lookup_2. eassumption.
Qed.

End grids.

(** ** The raster sampler *)

Section raster_sampler.

Import Spec F64.
Context (E : env).


Lemma geotiff_to_json_inv inp out k w res w' :
  geotiff_to_json E inp out k w = Ok (res, w') ->
  exists r data,
    w !! inp = Some (GeoTIFF r) /\
    Np.getitem_step2 k (Xr.values r) = Ok data /\
    Np.getitem_step k (Xr.latitude r) = Ok (lats res) /\
    Np.getitem_step k (Xr.longitude r) = Ok (lons res) /\
    heights res = Np.rows data /\
    shape res = Np.shape_list data /\
    Np.nanmin data = Ok (minHeight res) /\
    Np.nanmax data = Ok (maxHeight res) /\
    is_Some (w' !! out).
Proof.
  unfold geotiff_to_json. intros H. inv_run H.
  eexists _, _. repeat split; simpl; eassumption.
Qed.

Lemma getitem_step2_pos k a :
  (1 <= k)%Z ->
  Np.getitem_step2 k a =
  Ok {| Np.shape := (ceil_div (fst (Np.shape a)) (Z.to_nat k),
                     ceil_div (snd (Np.shape a)) (Z.to_nat k));
        Np.rows := map (Np.strided k) (Np.strided k (Np.rows a)) |}.
Proof.
  intros Hk. unfold Np.getitem_step2.
  destruct (Z.eqb_spec k 0); [lia|].
  rewrite !slice_len_ceil by assumption. reflexivity.
Qed.

Lemma getitem_step_pos {A} k (l : list A) :
  (1 <= k)%Z -> Np.getitem_step k l = Ok (Np.strided k l).
Proof.
  intros Hk. unfold Np.getitem_step. destruct (Z.eqb_spec k 0); [lia|].
  reflexivity.
Qed.

Lemma ceil_div_pos n k : (0 < n)%nat -> (0 < k)%nat -> (0 < ceil_div n k)%nat.
Proof.
  intros Hn Hk.
  destruct (Nat.eq_dec (ceil_div n k) 0) as [H0|]; [|lia].
  pose proof (proj1 (ceil_div_le n k 0 Hk)). lia.
Qed.

Lemma reduce_nonempty op l :
  (0 < length l)%nat -> exists m, Np.reduce op l = Ok m.
Proof. destruct l; simpl; [lia|eauto]. Qed.

Lemma geotiff_to_json_returns inp out k w r :
  w !! inp = Some (GeoTIFF r) ->
  Xr.wf_DataArray r ->
  (0 < fst (Np.shape (Xr.values r)))%nat ->
  (0 < snd (Np.shape (Xr.values r)))%nat ->
  (1 <= k)%Z ->
  (forall d, writer E out (Json d) = Stored) ->
  exists res,
    geotiff_to_json E inp out k w = Ok (res, <[out := Json res]> w).
Proof.
  intros Hin (Hwf & Hlat & Hlon) Hrows Hcols Hk Hwr.
  assert (Hkn : (0 < Z.to_nat k)%nat) by lia.
  destruct Hwf as [Hn Hm].
  pose proof (strided_dims k _ _ _ Hk (conj Hn Hm)) as [Hn' Hm'].
  pose proof (ceil_div_pos _ _ Hrows Hkn) as Hr'.
  pose proof (ceil_div_pos _ _ Hcols Hkn) as Hc'.
  set (rows' := map (Np.strided k) (Np.strided k (Np.rows (Xr.values r)))) in *.
  assert (Hne : (0 < length (concat rows'))%nat).
  { destruct rows' as [|row rest]; simpl in *; [lia|].
    apply Forall_cons in Hm' as [Hrow _]. rewrite length_app. lia. }
  destruct (reduce_nonempty Np.fmin _ Hne) as [mn Hmn].
  destruct (reduce_nonempty Np.fmax _ Hne) as [mx Hmx].
  destruct (reduce_nonempty Np.minimum (Np.strided k (Xr.latitude r))) as [a1 Ha1].
  { rewrite strided_length, Hlat by assumption. assumption. }
  destruct (reduce_nonempty Np.maximum (Np.strided k (Xr.latitude r))) as [a2 Ha2].
  { rewrite strided_length, Hlat by assumption. assumption. }
  destruct (reduce_nonempty Np.minimum (Np.strided k (Xr.longitude r))) as [a3 Ha3].
  { rewrite strided_length, Hlon by assumption. assumption. }
  destruct (reduce_nonempty Np.maximum (Np.strided k (Xr.longitude r))) as [a4 Ha4].
  { rewrite strided_length, Hlon by assumption. assumption. }
  eexists. unfold geotiff_to_json.
  erewrite bind_run by (apply open_rasterio_Ok; split; [exact Hin|reflexivity]).
  rewrite getitem_step2_pos, !getitem_step_pos by assumption.
  cbv beta iota delta [mbind M_bind lift].
  unfold Np.nanmin, Np.nanmax, Np.amin, Np.amax. simpl Np.rows. fold rows'.
  rewrite Hmn, Hmx, Ha1, Ha2, Ha3, Ha4.
  cbv beta iota delta [json_dump write stat mret M_ret].
  rewrite Hwr. cbv beta iota zeta. rewrite lookup_insert_eq. reflexivity.
Qed.


(** C3.  At a stride [k >= 1], [geotiff_to_json] keeps every [k]-th row
    and column of the raster, starting at row and column 0, without
    changing a value: cell [(i, j)] of [heights] is cell [(i k, j k)] of
    the raster.  The reported [shape] is
    [(ceil (nrows / k), ceil (ncols / k))] and these are the dimensions of
    [heights].  On a raster with at least one row and one column the
    function returns once the writer stores the file. *)
Theorem geotiff_to_json_decimation inp out k w r nrows ncols :
  w !! inp = Some (GeoTIFF r) ->
  Xr.wf_DataArray r ->
  Np.shape (Xr.values r) = (nrows, ncols) ->
  (1 <= k)%Z ->
  (forall res w',
      geotiff_to_json E inp out k w = Ok (res, w') ->
      shape res = [ceil_div nrows (Z.to_nat k); ceil_div ncols (Z.to_nat k)] /\
      has_dims (heights res)
               (ceil_div nrows (Z.to_nat k)) (ceil_div ncols (Z.to_nat k)) /\
      forall i j,
        cell (heights res) i j =
        cell (Np.rows (Xr.values r)) (i * Z.to_nat k) (j * Z.to_nat k)) /\
  ((0 < nrows)%nat -> (0 < ncols)%nat ->
   (forall d, writer E out (Json d) = Stored) ->
   exists res,
     geotiff_to_json E inp out k w = Ok (res, <[out := Json res]> w)).
Proof.
  intros Hin Hwf Hshape Hk. split.
  - intros res w' Hrun.
    apply geotiff_to_json_inv in Hrun
      as (r' & data & Hin' & Hdata & _ & _ & Hh & Hs & _).
    assert (r' = r) as -> by congruence.
    rewrite getitem_step2_pos in Hdata by assumption.
    injection Hdata as <-. rewrite Hh, Hs. simpl.
    destruct Hwf as ([Hn Hm] & _). rewrite Hshape in *. simpl in *.
    repeat split.
    + apply (strided_dims k _ nrows ncols Hk (conj Hn Hm)).
    + apply (strided_dims k _ nrows ncols Hk (conj Hn Hm)).
    + intros i j. apply strided_cell. assumption.
  - intros Hr Hc Hwr.
    apply (geotiff_to_json_returns inp out k w r); try assumption;
      rewrite Hshape; assumption.
Qed.

(** C10.  The axes of the sampled grid agree with its values: the length
    of [lats] is [shape[0]], the number of rows of [heights], and the
    length of [lons] is [shape[1]], the number of columns. *)
Theorem geotiff_to_json_axes inp out k w r :
  w !! inp = Some (GeoTIFF r) ->
  Xr.wf_DataArray r ->
  (1 <= k)%Z ->
  (forall res w',
      geotiff_to_json E inp out k w = Ok (res, w') ->
      exists n m,
        shape res = [n; m] /\
        length (lats res) = n /\
        length (lons res) = m /\
        has_dims (heights res) n m) /\
  ((0 < fst (Np.shape (Xr.values r)))%nat ->
   (0 < snd (Np.shape (Xr.values r)))%nat ->
   (forall d, writer E out (Json d) = Stored) ->
   exists res,
     geotiff_to_json E inp out k w = Ok (res, <[out := Json res]> w)).
Proof.
  intros Hin Hwf Hk. split.
  - intros res w' Hrun.
    apply geotiff_to_json_inv in Hrun
      as (r' & data & Hin' & Hdata & Hlat & Hlon & Hh & Hs & _).
    assert (r' = r) as -> by congruence.
    rewrite getitem_step2_pos in Hdata by assumption.
    rewrite getitem_step_pos in Hlat, Hlon by assumption.
    injection Hdata as <-. injection Hlat as Hlat. injection Hlon as Hlon.
    destruct Hwf as ([Hn Hm] & Hy & Hx).
    eexists _, _. rewrite Hs, Hh, <- Hlat, <- Hlon. simpl.
    rewrite !strided_length by assumption. rewrite Hy, Hx.
    repeat split.
    + apply (strided_dims k _ _ _ Hk (conj Hn Hm)).
    + apply (strided_dims k _ _ _ Hk (conj Hn Hm)).
  - intros Hr Hc Hwr.
    apply (geotiff_to_json_returns inp out k w r); assumption.
Qed.

(** C4.  [minHeight] and [maxHeight] are the NaN-aware extrema of the
    decimated values: each is a cell of the sampled grid, and
    [minHeight <= v <= maxHeight] for every cell [v] of the sampled grid
    that is not NaN.  A NaN cell does not enter the extrema (they are not
    NaN as soon as one cell is not) and stays in [heights] at its
    position, since every cell of [heights] is the cell of the raster it
    was taken from. *)
Theorem geotiff_to_json_extrema inp out k w r :
  w !! inp = Some (GeoTIFF r) ->
  (1 <= k)%Z ->
  (forall res w',
      geotiff_to_json E inp out k w = Ok (res, w') ->
      (forall i j,
          cell (heights res) i j =
          cell (Np.rows (Xr.values r)) (i * Z.to_nat k) (j * Z.to_nat k)) /\
      (forall i j v,
          cell (heights res) i j = Some v -> isnan v = false ->
          (minHeight res <=? v)%float = true /\
          (v <=? maxHeight res)%float = true) /\
      (exists i j, cell (heights res) i j = Some (minHeight res)) /\
      (exists i j, cell (heights res) i j = Some (maxHeight res)) /\
      ((exists i j v, cell (heights res) i j = Some v /\ isnan v = false) ->
       isnan (minHeight res) = false /\ isnan (maxHeight res) = false)) /\
  (Xr.wf_DataArray r ->
   (0 < fst (Np.shape (Xr.values r)))%nat ->
   (0 < snd (Np.shape (Xr.values r)))%nat ->
   (forall d, writer E out (Json d) = Stored) ->
   exists res,
     geotiff_to_json E inp out k w = Ok (res, <[out := Json res]> w)).
Proof.
  intros Hin Hk. split.
  - intros res w' Hrun.
    apply geotiff_to_json_inv in Hrun
      as (r' & data & Hin' & Hdata & _ & _ & Hh & _ & Hmin & Hmax & _).
    assert (r' = r) as -> by congruence.
    rewrite getitem_step2_pos in Hdata by assumption.
    apply nanmin_spec in Hmin as [Hmin_in Hmin].
    apply nanmax_spec in Hmax as [Hmax_in Hmax].
    rewrite <- Hh in Hmin_in, Hmin, Hmax_in, Hmax.
    assert (Hbounds : forall i j v,
               cell (heights res) i j = Some v -> isnan v = false ->
               (minHeight res <=? v)%float = true /\
               (v <=? maxHeight res)%float = true).
    { intros i j v Hv Hnan. split; [apply Hmin|apply Hmax]; try assumption;
        apply cell_In; eauto. }
    repeat split.
    + intros i j. injection Hdata as <-. rewrite Hh. simpl.
      apply strided_cell. assumption.
    + eapply Hbounds; eassumption.
    + eapply Hbounds; eassumption.
    + apply cell_In. assumption.
    + apply cell_In. assumption.
    + destruct H as (i & j & v & Hv & Hnan).
      destruct (Hbounds i j v Hv Hnan) as [H1 _].
      apply leb_not_nan in H1. tauto.
    + destruct H as (i & j & v & Hv & Hnan).
      destruct (Hbounds i j v Hv Hnan) as [_ H1].
      apply leb_not_nan in H1. tauto.
  - intros Hwf Hr Hc Hwr.
    apply (geotiff_to_json_returns inp out k w r); assumption.
Qed.

End raster_sampler.

(** ** Frames of features *)

Section frames.

Import Shapely Gpd Spec.

Lemma imap_snd {A} (h : nat -> A -> label) (l : list A) :
  map snd (imap (fun i x => (h i x, x)) l) = l.
Proof.
  revert h. induction l as [|x l IH]; intros h; simpl; [reflexivity|].
  f_equal. apply (IH (fun i => h (S i))).
Qed.

Lemma features_of_features fs : features (of_features fs) = fs.
Proof. apply (imap_snd (fun i _ => [i])). Qed.

Lemma length_of_features fs : length (of_features fs) = length fs.
Proof. unfold of_features. apply length_imap. Qed.

Lemma index_of_features fs :
  map fst (of_features fs) = flat_index (length fs).
Proof.
  unfold of_features, flat_index.
  enough (H : forall l (g : nat -> nat),
             map fst (imap (fun i (f : feature) => ([g i], f)) l) =
             map (fun i => [g i]) (seq 0 (length l)))
    by apply (H fs (fun i => i)).
  induction l as [|x l IH]; intros g; simpl; [reflexivity|].
  f_equal. rewrite <- seq_shift, map_map. apply (IH (fun i => g (S i))).
Qed.

Lemma features_reset_index gdf : features (reset_index gdf) = features gdf.
Proof. apply features_of_features. Qed.

Lemma index_reset_index gdf :
  map fst (reset_index gdf) = flat_index (length gdf).
Proof.
  unfold reset_index. rewrite index_of_features. unfold features.
  rewrite length_map. reflexivity.
Qed.

Lemma features_explode_row r :
  features (explode_row r) = parts_of (snd r).
Proof.
  unfold explode_row, parts_of, features.
  destruct (geometry_of (snd r)) as [g|]; [|reflexivity].
  generalize (get_parts g). intros parts.
  enough (H : forall l (h : nat -> label),
             map snd (imap (fun k part =>
                             (h k, {| properties := properties (snd r);
                                      geometry_of := Some part |})) l) =
             map (with_geometry (snd r)) l)
    by apply (H parts (fun k => fst r ++ [k])).
  induction l as [|x l IH]; intros h; simpl; [reflexivity|].
  f_equal. apply (IH (fun k => h (S k))).
Qed.

Lemma features_explode gdf :
  features (explode gdf) = flat_map parts_of (features gdf).
Proof.
  unfold explode, features. induction gdf as [|r gdf IH]; simpl;
    [reflexivity|].
  rewrite map_app, IH. f_equal. apply features_explode_row.
Qed.

Lemma features_set_boundary gdf :
  features (set_boundary gdf) = map boundary_of (features gdf).
Proof. unfold set_boundary, features. rewrite !map_map. reflexivity. Qed.

(** The features of the decomposed collection, from the features read. *)
Lemma features_decomposed fs :
  features (reset_index (explode (set_boundary
             (reset_index (explode (of_features fs)))))) =
  flat_map (fun f => flat_map (fun p => parts_of (boundary_of p)) (parts_of f)) fs.
Proof.
  rewrite features_reset_index, features_explode, features_set_boundary,
    features_reset_index, features_explode, features_of_features.
  induction fs as [|f fs IH]; simpl; [reflexivity|].
  rewrite map_app, flat_map_app, IH. f_equal.
  rewrite flat_map_concat_map, map_map, <- flat_map_concat_map. reflexivity.
Qed.

Lemma polygon_lines f rings :
  parts_of (boundary_of (with_geometry f (Polygon rings))) =
  map (fun ring => with_geometry f (LineString ring)) rings.
Proof.
  destruct rings as [|shell [|hole holes]]; try reflexivity.
  unfold parts_of, boundary_of. simpl. rewrite map_map. reflexivity.
Qed.

Lemma polygonal_lines f :
  is_polygonal f ->
  flat_map (fun p => parts_of (boundary_of p)) (parts_of f) = rings_as_lines f.
Proof.
  unfold rings_as_lines, single_polygons, parts_of.
  intros [[rings H]|[ps H]]; rewrite H; simpl.
  - rewrite !app_nil_r. apply polygon_lines.
  - clear H. induction ps as [|p ps IH]; simpl; [reflexivity|].
    rewrite map_app, IH. f_equal. apply polygon_lines.
Qed.

Lemma line_string_ends f :
  is_LineString f ->
  flat_map (fun p => parts_of (boundary_of p)) (parts_of f) = line_ends f.
Proof.
  unfold line_ends, parts_of. intros [cs H]. rewrite H. simpl.
  rewrite app_nil_r. unfold parts_of, boundary_of. simpl.
  destruct (is_closed cs); simpl; [reflexivity|].
  rewrite map_map. reflexivity.
Qed.

End frames.

(** ** The boundary decomposer *)

Section boundary_decomposer.

Import Shapely Gpd Spec.
Context (E : env).

Lemma clean_world_geojson_inv url out w lines w' :
  clean_world_geojson E url out w = Ok (lines, w') ->
  exists fs,
    read_file E url = Ok fs /\
    features lines = flat_map pieces fs /\
    map fst lines = flat_index (length lines) /\
    is_Some (w' !! out) /\
    (w' = <[out := GeoJSON (features lines)]> w \/ w' = w).
Proof.
  unfold clean_world_geojson. intros H. inv_run H.
  apply write_Ok in Hrun0.
  eexists. split; [eassumption|]. split; [apply features_decomposed|].
  split; [|split; [assumption|]].
  - rewrite index_reset_index. unfold reset_index.
    rewrite length_of_features. unfold features. rewrite length_map.
    reflexivity.
  - destruct Hrun0 as [[_ ->]|[_ ->]]; auto.
Qed.

Lemma clean_world_geojson_returns url out w fs :
  read_file E url = Ok fs ->
  (forall c, writer E out (GeoJSON c) = Stored) ->
  exists lines,
    clean_world_geojson E url out w =
    Ok (lines, <[out := GeoJSON (features lines)]> w).
Proof.
  intros Hread Hwr. eexists. unfold clean_world_geojson.
  rewrite Hread. cbv beta iota zeta delta [mbind M_bind lift to_file write].
  rewrite Hwr. cbv beta iota zeta delta [stat mret M_ret].
  rewrite lookup_insert_eq. reflexivity.
Qed.

Lemma clean_world_geojson_raises url out w fs e :
  read_file E url = Ok fs ->
  clean_world_geojson E url out w = Raise e ->
  (exists c, writer E out (GeoJSON c) = Fault e) \/
  (e = FileNotFoundError /\ (exists c, writer E out (GeoJSON c) = Lost) /\
   w !! out = None).
Proof.
  intros Hread. unfold clean_world_geojson.
  rewrite Hread. cbv beta iota zeta delta [mbind M_bind lift to_file write].
  destruct (writer E out _) eqn:Hwr; cbv beta iota zeta delta [stat mret M_ret].
  - rewrite lookup_insert_eq. discriminate.
  - destruct (w !! out) eqn:Hout; [discriminate|].
    intros [= <-]. right. eauto.
  - intros [= <-]. left. eauto.
Qed.

(** C1.  When every geometry read is a Polygon or a MultiPolygon, the
    collection that [clean_world_geojson] returns holds only LineString
    features, one per ring of the single polygons of the input (the
    exterior ring and the holes of each), in order and with the
    properties of the feature the ring comes from; so their number is the
    number of rings of the input.  The function returns once the writer
    stores the file. *)
Theorem clean_world_geojson_rings url out w fs :
  read_file E url = Ok fs ->
  Forall is_polygonal fs ->
  (forall lines w',
      clean_world_geojson E url out w = Ok (lines, w') ->
      Forall is_LineString (features lines) /\
      length lines = ring_count fs /\
      features lines = flat_map rings_as_lines fs) /\
  ((forall c, writer E out (GeoJSON c) = Stored) ->
   exists lines,
     clean_world_geojson E url out w =
     Ok (lines, <[out := GeoJSON (features lines)]> w)).
Proof.
  intros Hread Hpoly. split;
    [|intros Hwr; apply (clean_world_geojson_returns url out w fs);
      assumption].
  intros lines w' Hrun.
  apply clean_world_geojson_inv in Hrun as (fs' & Hread' & Hf & _).
  assert (fs' = fs) as -> by congruence.
  assert (Hlines : features lines = flat_map rings_as_lines fs).
  { rewrite Hf. clear Hf Hread Hread'.
    induction Hpoly as [|f fs Hp _ IH]; simpl; [reflexivity|].
    rewrite IH. f_equal. apply polygonal_lines. assumption. }
  split; [|split; [|assumption]].
  - rewrite Hlines. apply Forall_forall. intros x Hx.
    apply list_elem_of_In, in_flat_map in Hx as (f & _ & Hx).
    apply in_map_iff in Hx as (ring & <- & _). exists ring. reflexivity.
  - transitivity (length (features lines));
      [unfold features; rewrite length_map; reflexivity|].
    rewrite Hlines. unfold ring_count. clear.
    induction fs as [|f fs IH]; simpl; [reflexivity|].
    rewrite length_app, sum_list_with_app, IH. f_equal.
    unfold rings_as_lines. rewrite length_map.
    induction (single_polygons f) as [|p ps IHp]; simpl; [reflexivity|].
    rewrite length_app, IHp. reflexivity.
Qed.

(** C9.  The first explosion, [gdf.explode(index_parts=True)
    .reset_index(drop=True)], replaces a MultiPolygon feature of [N]
    polygons by [N] Polygon features, one per polygon and in order, each
    with the properties of the MultiPolygon feature, between the parts
    of the features before and after it; the index of the result is
    0, 1, 2, ... *)
Theorem explode_MultiPolygon (before after : list feature) props ps :
  let f := {| properties := props; geometry_of := Some (MultiPolygon ps) |} in
  let gdf := of_features (before ++ f :: after) in
  let gdf_exploded := reset_index (explode gdf) in
  features gdf_exploded =
    flat_map parts_of before ++
    map (fun p => {| properties := props; geometry_of := Some (Polygon p) |}) ps ++
    flat_map parts_of after /\
  length (map (fun p => {| properties := props; geometry_of := Some (Polygon p) |}) ps)
    = length ps /\
  map fst gdf_exploded = flat_index (length gdf_exploded).
Proof.
  intros f gdf gdf_exploded. split; [|split].
  - unfold gdf_exploded, gdf.
    rewrite features_reset_index, features_explode, features_of_features.
    rewrite flat_map_app. simpl. f_equal. f_equal.
    unfold parts_of. simpl. rewrite map_map. reflexivity.
  - apply length_map.
  - unfold gdf_exploded. rewrite index_reset_index.
    unfold reset_index. rewrite length_of_features. unfold features.
    rewrite length_map. reflexivity.
Qed.

(** C6, amended.  On a collection of LineStrings the decomposition is
    not the identity: every line is replaced by the parts of its
    boundary, that is by nothing when it is closed or empty and by its
    two end points, as Point features with the properties of the line,
    when it is open.  The result is indexed 0, 1, 2, ... and equals the
    input only when the input is empty. *)
Theorem clean_world_geojson_on_lines url out w fs :
  read_file E url = Ok fs ->
  Forall is_LineString fs ->
  (forall lines w',
      clean_world_geojson E url out w = Ok (lines, w') ->
      features lines = flat_map line_ends fs /\
      Forall is_Point (features lines) /\
      map fst lines = flat_index (length lines) /\
      (features lines = fs <-> fs = [])) /\
  ((forall c, writer E out (GeoJSON c) = Stored) ->
   exists lines,
     clean_world_geojson E url out w =
     Ok (lines, <[out := GeoJSON (features lines)]> w)).
Proof.
  intros Hread Hls. split;
    [|intros Hwr; apply (clean_world_geojson_returns url out w fs);
      assumption].
  intros lines w' Hrun.
  apply clean_world_geojson_inv in Hrun as (fs' & Hread' & Hf & Hidx & _).
  assert (fs' = fs) as -> by congruence.
  assert (Hlines : features lines = flat_map line_ends fs).
  { rewrite Hf. clear Hf Hread Hread'.
    induction Hls as [|f fs Hp _ IH]; simpl; [reflexivity|].
    rewrite IH. f_equal. apply line_string_ends. assumption. }
  assert (Hpts : Forall is_Point (features lines)).
  { rewrite Hlines. apply Forall_forall. intros x Hx.
    apply list_elem_of_In, in_flat_map in Hx as (f & _ & Hx).
    unfold line_ends in Hx.
    destruct (geometry_of f) as [[]|]; try contradiction.
    destruct (is_closed cs); [contradiction|].
    apply in_map_iff in Hx as (c & <- & _). exists c. reflexivity. }
  repeat split; try assumption.
  - intros Heq. destruct fs as [|f fs]; [reflexivity|]. exfalso.
    rewrite Heq in Hpts.
    apply Forall_cons in Hpts as [[c Hc] _].
    apply Forall_cons in Hls as [[cs Hcs] _]. congruence.
  - intros ->. assumption.
Qed.

(** C5, amended.  [clean_world_geojson] does not look at the types of the
    geometries it writes.  Whatever features are read, it returns their
    decomposition as soon as the writer stores the file, and when it
    raises after reading, the exception is the writer's or the
    [FileNotFoundError] of [stat] on a file that was not stored. *)
Theorem clean_world_geojson_unchecked url out w fs :
  read_file E url = Ok fs ->
  ((forall c, writer E out (GeoJSON c) = Stored) ->
   exists lines,
     clean_world_geojson E url out w =
     Ok (lines, <[out := GeoJSON (features lines)]> w) /\
     features lines = flat_map pieces fs) /\
  (forall e,
      clean_world_geojson E url out w = Raise e ->
      (exists c, writer E out (GeoJSON c) = Fault e) \/
      (e = FileNotFoundError /\ (exists c, writer E out (GeoJSON c) = Lost) /\
       w !! out = None)).
Proof.
  intros Hread. split.
  - intros Hwr.
    destruct (clean_world_geojson_returns url out w fs Hread Hwr) as [lines Hrun].
    exists lines. split; [assumption|].
    apply clean_world_geojson_inv in Hrun as (fs' & Hread' & Hf & _).
    congruence.
  - intros e. apply (clean_world_geojson_raises url out w fs). assumption.
Qed.

End boundary_decomposer.

(** ** Stages only add files *)

Section persistence.

Import Spec.

Context (E : env).

Lemma extends_refl w : extends w w.
Proof. intros p H. exact H. Qed.

Lemma extends_trans w1 w2 w3 : extends w1 w2 -> extends w2 w3 -> extends w1 w3.
Proof. intros H1 H2 p H. apply H2, H1, H. Qed.

Lemma extends_insert (w : world) p n : extends w (<[p := n]> w).
Proof.
  intros q H. rewrite lookup_insert_is_Some. 
  destruct (decide (p = q)); auto.
Qed.

Lemma write_extends p n w u w' :
  write E p n w = Ok (u, w') -> extends w w'.
Proof.
  intros H. apply write_Ok in H as [[_ ->]|[_ ->]];
    [apply extends_insert|apply extends_refl].
Qed.

Lemma mkdir1_extends final q w u w' :
  mkdir1 final q w = Ok (u, w') -> extends w w'.
Proof.
  unfold mkdir1. destruct (w !! q) as [[]|]; try discriminate;
    intros [= <- <-]; [apply extends_refl|apply extends_insert].
Qed.

Lemma mkdir_from_extends rest : forall above w u w',
  mkdir_from above rest w = Ok (u, w') -> extends w w'.
Proof.
  induction rest as [|c rest IH]; intros above w u w' H; simpl in H.
  - apply ret_Ok in H as [_ ->]. apply extends_refl.
  - apply bind_Ok in H as (? & w1 & H1 & H2).
    eapply extends_trans; [eapply mkdir1_extends|eapply IH]; eassumption.
Qed.

Lemma mkdir_extends d w u w' : mkdir d w = Ok (u, w') -> extends w w'.
Proof. apply mkdir_from_extends. Qed.

Lemma generate_geoid_extends n p w u w' :
  generate_geoid E n p w = Ok (u, w') -> extends w w'.
Proof.
  unfold generate_geoid, save_geoid_as_geotiff, to_raster. intros H.
  inv_run H.
  eapply extends_trans; [eapply mkdir_extends|eapply write_extends];
    eassumption.
Qed.

Lemma geotiff_to_json_extends inp out k w d w' :
  geotiff_to_json E inp out k w = Ok (d, w') -> extends w w'.
Proof.
  unfold geotiff_to_json, json_dump. intros H. inv_run H.
  eapply write_extends. eassumption.
Qed.

Lemma clean_world_geojson_extends url out w l w' :
  clean_world_geojson E url out w = Ok (l, w') -> extends w w'.
Proof.
  unfold clean_world_geojson, to_file. intros H. inv_run H.
  eapply write_extends. eassumption.
Qed.

End persistence.

(** ** The orchestrator *)

Section orchestrator.

Import Spec.

Context (E : env).

(** C8.  [run_pipeline] returns only in a state where the three
    artifacts exist: the raster, the sampled grid and the boundaries.
    After the directories are made it runs the three stages in order;
    what a stage raises is raised by the run, and after each stage that
    returns, the run goes on only if the artifact of the stage exists
    and raises [FileNotFoundError] otherwise.  [main] is the run on the
    default configuration, and raises what the run raises. *)
Theorem run_pipeline_checks cfg w :
  let g := geotiff_path cfg in
  let j := json_path cfg in
  let b := world_boundaries_path cfg in
  let dirs : M unit := mkdir (parent g);; mkdir (parent j);; mkdir (parent b) in
  (forall w',
      run_pipeline E cfg w = Ok (tt, w') ->
      is_Some (w' !! g) /\ is_Some (w' !! j) /\ is_Some (w' !! b)) /\
  (forall e, dirs w = Raise e -> run_pipeline E cfg w = Raise e) /\
  (forall w0, dirs w = Ok (tt, w0) ->
    (forall e, generate_geoid E (lmax cfg) g w0 = Raise e ->
               run_pipeline E cfg w = Raise e) /\
    (forall w1, generate_geoid E (lmax cfg) g w0 = Ok (tt, w1) ->
      (w1 !! g = None -> run_pipeline E cfg w = Raise FileNotFoundError) /\
      (is_Some (w1 !! g) ->
        (forall e, geotiff_to_json E g j (downsample cfg) w1 = Raise e ->
                   run_pipeline E cfg w = Raise e) /\
        (forall d w2, geotiff_to_json E g j (downsample cfg) w1 = Ok (d, w2) ->
          (w2 !! j = None -> run_pipeline E cfg w = Raise FileNotFoundError) /\
          (is_Some (w2 !! j) ->
            (forall e, clean_world_geojson E (world_geojson_url cfg) b w2 = Raise e ->
                       run_pipeline E cfg w = Raise e) /\
            (forall l w3, clean_world_geojson E (world_geojson_url cfg) b w2 = Ok (l, w3) ->
              (w3 !! b = None -> run_pipeline E cfg w = Raise FileNotFoundError) /\
              (is_Some (w3 !! b) -> run_pipeline E cfg w = Ok (tt, w3)))))))) /\
  main E w = run_pipeline E default_config w.
Proof.
  intros g j b dirs. split; [|split; [|split]].
  - intros w' H. unfold run_pipeline in H. fold g j b in H. inv_run H.
    repeat match goal with
           | H : geotiff_to_json _ _ _ _ _ = Ok _ |- _ =>
               apply geotiff_to_json_extends in H
           | H : clean_world_geojson _ _ _ _ = Ok _ |- _ =>
               apply clean_world_geojson_extends in H
           end.
    auto 10.
  - intros e. unfold run_pipeline, dirs. fold g j b. unfold mbind, M_bind.
    destruct (mkdir (parent g) w) as [[[] wa]|ea]; [|auto].
    destruct (mkdir (parent j) wa) as [[[] wb]|eb]; [|auto].
    destruct (mkdir (parent b) wb) as [[[] wc]|ec]; [discriminate|auto].
  - intros w0. unfold run_pipeline, dirs. fold g j b. unfold mbind, M_bind.
    destruct (mkdir (parent g) w) as [[[] wa]|ea]; [|discriminate].
    destruct (mkdir (parent j) wa) as [[[] wb]|eb]; [|discriminate].
    destruct (mkdir (parent b) wb) as [[[] wc]|ec]; [|discriminate].
    intros [= ->]. split; [intros e ->; reflexivity|].
    intros w1 ->. split.
    { intros Hg. rewrite (require_exists_missing g w1 Hg). reflexivity. }
    intros Hg. rewrite (require_exists_found g w1 Hg).
    split; [intros e ->; reflexivity|].
    intros d w2 ->. split.
    { intros Hj. rewrite (require_exists_missing j w2 Hj). reflexivity. }
    intros Hj. rewrite (require_exists_found j w2 Hj).
    split; [intros e ->; reflexivity|].
    intros l w3 ->. split.
    { intros Hb. rewrite (require_exists_missing b w3 Hb). reflexivity. }
    intros Hb. rewrite (require_exists_found b w3 Hb). reflexivity.
  - reflexivity.
Qed.
End orchestrator.

(** ** The configuration *)

Section configuration.

(** C7, amended.  A stride below 1 is refused when the configuration is
    built: [PipelineConfig] raises a [ValidationError], so no stage of
    the pipeline runs on such a configuration.  [geotiff_to_json] itself
    does not check its stride: it raises the error of the raster reader
    when the input path holds no raster, and on a raster it raises the
    [ValueError] of the slice for the stride 0. *)
Theorem stride_checked_by_PipelineConfig (c : PipelineConfig) :
  (downsample c < 1)%Z ->
  PipelineConfig_init c = Raise ValidationError /\
  (forall E w,
      (lift (PipelineConfig_init c) ≫= run_pipeline E) w =
      Raise ValidationError) /\
  (forall E inp out w,
      (forall r, w !! inp <> Some (GeoTIFF r)) ->
      geotiff_to_json E inp out (downsample c) w = Raise RasterioIOError) /\
  (forall E inp out w r,
      w !! inp = Some (GeoTIFF r) -> downsample c = 0%Z ->
      geotiff_to_json E inp out (downsample c) w = Raise ValueError).
Proof.
  intros Hk.
  assert (Hinit : PipelineConfig_init c = Raise ValidationError).
  { unfold PipelineConfig_init, field_constraints.
    destruct (Z.leb_spec 1 (downsample c)); [lia|].
    rewrite andb_false_r. reflexivity. }
  split; [assumption|]. split; [|split].
  - intros E w. rewrite Hinit. reflexivity.
  - intros E inp out w Hno. unfold geotiff_to_json.
    apply bind_fail. unfold open_rasterio.
    destruct (w !! inp) as [[]|] eqn:Hin; try reflexivity.
    exfalso. eapply Hno. reflexivity.
  - intros E inp out w r Hin H0. unfold geotiff_to_json.
    erewrite bind_run by (apply open_rasterio_Ok; split; [exact Hin|reflexivity]).
    apply bind_fail. unfold Np.getitem_step2. rewrite H0. reflexivity.
Qed.

End configuration.

(** ** The longitude axis *)

Section longitude.

Import Spec.
Context (E : env).

Lemma insert_key_In x y l : In x (Np.insert_key y l) <-> x = y \/ In x l.
Proof.
  induction l as [|z l IH]; simpl; [intuition congruence|].
  destruct (Np.sort_lt (snd y) (snd z)); simpl; [intuition congruence|].
  rewrite IH. intuition congruence.
Qed.

Lemma fold_insert_key_In x l : forall acc,
  In x (fold_left (fun acc y => Np.insert_key y acc) l acc) <->
  In x l \/ In x acc.
Proof.
  induction l as [|y l IH]; intros acc; simpl; [tauto|].
  rewrite IH, insert_key_In. intuition congruence.
Qed.

Lemma argsort_In keys i v : keys !! i = Some v -> In i (Np.argsort keys).
Proof.
  intros H. unfold Np.argsort. apply in_map_iff. exists (i, v).
  split; [reflexivity|]. apply fold_insert_key_In. left.
  apply list_elem_of_In, elem_of_lookup_imap. eauto.
Qed.

(** Sorting an axis loses none of its values. *)
Lemma take_argsort_In keys v :
  In v keys -> In v (Np.take (Np.argsort keys) keys).
Proof.
  intros H. apply list_elem_of_In, list_elem_of_lookup in H as [i Hi].
  apply list_elem_of_In. unfold Np.take. apply list_elem_of_omap.
  exists i. split; [|assumption].
  apply list_elem_of_In. eapply argsort_In. eassumption.
Qed.

Lemma recenter_180 lons : In 180%float lons -> In 180%float (recenter lons).
Proof.
  intros H. unfold recenter. apply in_map_iff. exists 180%float.
  split; [reflexivity|assumption].
Qed.

(** An axis that also carries the longitude 360 gets the longitude 0
    twice: 360 - 360 = 0. *)
Example recenter_extended_axis :
  let lons := recenter [0; 90; 180; 270; 360]%float in
  Np.take (Np.argsort lons) lons = [-90; 0; 0; 90; 180]%float.
Proof. vm_compute. reflexivity. Qed.

(** C2.  The comparison [lon > 180] leaves the longitude 180 where it
    is: when the axis of the synthesised grid contains 180, then, once
    the directory of the output is made and the writer stores the file,
    [generate_geoid] writes a raster whose longitude axis contains 180,
    and so does not lie within [-180, 180). *)
Theorem generate_geoid_keeps_180 n out w w0 array :
  EGM2008_geoid E n = Ok array ->
  In 180%float (Xr.longitude array) ->
  (forall c, writer E out (GeoTIFF c) = Stored) ->
  mkdir (parent out) w = Ok (tt, w0) ->
  exists raster,
    generate_geoid E n out w = Ok (tt, <[out := GeoTIFF raster]> w0) /\
    In 180%float (Xr.longitude raster) /\
    ~ Forall (fun lon => in_range lon = true) (Xr.longitude raster).
Proof.
  intros Hsyn H180 Hwr Hdir.
  exists (Xr.sortby_longitude
            (Xr.assign_longitude (recenter (Xr.longitude array)) array)).
  split.
  - unfold generate_geoid, save_geoid_as_geotiff, to_raster.
    rewrite Hsyn. cbv beta iota zeta delta [mbind M_bind lift].
    rewrite Hdir. unfold write. rewrite Hwr. reflexivity.
  - assert (Hin : In 180%float
                    (Xr.longitude (Xr.sortby_longitude
                       (Xr.assign_longitude (recenter (Xr.longitude array))
                                            array)))).
    { simpl. apply take_argsort_In, recenter_180. assumption. }
    split; [exact Hin|].
    intros Hall. rewrite Forall_forall in Hall.
    apply list_elem_of_In, Hall in Hin. vm_compute in Hin. discriminate.
Qed.

End longitude.

(** ** More on the raster sampler *)

Section more_sampling.

Import Spec F64.
Context (E : env).

Lemma every_all {A} (l : list A) : Np.every 0 0 l = l.
Proof.
  induction l as [|x l IH]; simpl; [reflexivity|]. rewrite IH. reflexivity.
Qed.

Lemma strided_1 {A} (l : list A) : Np.strided 1 l = l.
Proof. apply every_all. Qed.

Lemma slice_len_1 n : Np.slice_len n 1 = n.
Proof.
  destruct n as [|m]; [reflexivity|]. unfold Np.slice_len.
  change (Z.to_nat (Z.abs 1)) with 1. rewrite Nat.div_1_r. lia.
Qed.

(** X1.  At the stride 1, the default, nothing is dropped: once the
    writer stores the file, [geotiff_to_json] returns the grid of the
    raster, its latitude axis and its longitude axis as they are, and the
    shape of the raster. *)
Theorem geotiff_to_json_full_resolution inp out w r :
  w !! inp = Some (GeoTIFF r) ->
  Xr.wf_DataArray r ->
  0 < fst (Np.shape (Xr.values r)) ->
  0 < snd (Np.shape (Xr.values r)) ->
  (forall d, writer E out (Json d) = Stored) ->
  exists res,
    geotiff_to_json E inp out 1 w = Ok (res, <[out := Json res]> w) /\
    heights res = Np.rows (Xr.values r) /\
    lats res = Xr.latitude r /\
    lons res = Xr.longitude r /\
    shape res = [fst (Np.shape (Xr.values r)); snd (Np.shape (Xr.values r))].
Proof.
  intros Hin Hwf Hr Hc Hwr.
  destruct (geotiff_to_json_returns E inp out 1 w r Hin Hwf Hr Hc ltac:(lia) Hwr)
    as [res Hrun].
  exists res. split; [exact Hrun|].
  apply geotiff_to_json_inv in Hrun
    as (r' & data & Hin' & Hdata & Hlat & Hlon & Hh & Hs & _).
  assert (r' = r) as -> by congruence.
  unfold Np.getitem_step2 in Hdata. unfold Np.getitem_step in Hlat, Hlon.
  simpl in Hdata, Hlat, Hlon.
  injection Hdata as <-. injection Hlat as <-. injection Hlon as <-.
  rewrite Hh, Hs. unfold Np.shape_list. simpl.
  rewrite !slice_len_1, !strided_1.
  repeat split; try reflexivity.
  clear. induction (Np.rows (Xr.values r)) as [|row rows IH]; simpl;
    [reflexivity|]. rewrite strided_1, IH. reflexivity.
Qed.

(** X2.  Every sampled height keeps its coordinates: at a stride
    [k >= 1], entry [i] of [lats] is the latitude of the raster row [i k],
    entry [j] of [lons] is the longitude of the raster column [j k], and
    cell [(i, j)] of [heights] is the raster cell of that row and
    column. *)
Theorem geotiff_to_json_coordinates inp out k w r :
  w !! inp = Some (GeoTIFF r) ->
  Xr.wf_DataArray r ->
  0 < fst (Np.shape (Xr.values r)) ->
  0 < snd (Np.shape (Xr.values r)) ->
  (1 <= k)%Z ->
  (forall d, writer E out (Json d) = Stored) ->
  exists res,
    geotiff_to_json E inp out k w = Ok (res, <[out := Json res]> w) /\
    forall i j,
      lats res !! i = Xr.latitude r !! (i * Z.to_nat k) /\
      lons res !! j = Xr.longitude r !! (j * Z.to_nat k) /\
      cell (heights res) i j =
        cell (Np.rows (Xr.values r)) (i * Z.to_nat k) (j * Z.to_nat k).
Proof.
  intros Hin Hwf Hr Hc Hk Hwr.
  destruct (geotiff_to_json_returns E inp out k w r Hin Hwf Hr Hc Hk Hwr)
    as [res Hrun].
  exists res. split; [exact Hrun|].
  apply geotiff_to_json_inv in Hrun
    as (r' & data & Hin' & Hdata & Hlat & Hlon & Hh & _).
  assert (r' = r) as -> by congruence.
  rewrite getitem_step2_pos in Hdata by assumption.
  rewrite getitem_step_pos in Hlat, Hlon by assumption.
  injection Hdata as <-. injection Hlat as <-. injection Hlon as <-.
  intros i j. rewrite Hh. simpl.
  rewrite !strided_lookup by assumption.
  repeat split. apply strided_cell. assumption.
Qed.

(** X3.  Strides compose: the grid sampled at the stride [k m] is the
    grid sampled at the stride [k], sampled again at the stride [m];
    heights, latitudes and longitudes alike. *)
Theorem geotiff_to_json_coarser inp out k m w r :
  w !! inp = Some (GeoTIFF r) ->
  Xr.wf_DataArray r ->
  0 < fst (Np.shape (Xr.values r)) ->
  0 < snd (Np.shape (Xr.values r)) ->
  (1 <= k)%Z -> (1 <= m)%Z ->
  (forall d, writer E out (Json d) = Stored) ->
  exists fine coarse,
    geotiff_to_json E inp out k w = Ok (fine, <[out := Json fine]> w) /\
    geotiff_to_json E inp out (k * m) w = Ok (coarse, <[out := Json coarse]> w) /\
    forall i j,
      cell (heights coarse) i j =
        cell (heights fine) (i * Z.to_nat m) (j * Z.to_nat m) /\
      lats coarse !! i = lats fine !! (i * Z.to_nat m) /\
      lons coarse !! j = lons fine !! (j * Z.to_nat m).
Proof.
  intros Hin Hwf Hr Hc Hk Hm Hwr.
  assert (Hkm : (1 <= k * m)%Z) by nia.
  destruct (geotiff_to_json_returns E inp out k w r Hin Hwf Hr Hc Hk Hwr)
    as [fine Hfine].
  destruct (geotiff_to_json_returns E inp out (k * m) w r Hin Hwf Hr Hc Hkm Hwr)
    as [coarse Hcoarse].
  exists fine, coarse. split; [exact Hfine|]. split; [exact Hcoarse|].
  apply geotiff_to_json_inv in Hfine
    as (r1 & d1 & Hin1 & Hd1 & Hlat1 & Hlon1 & Hh1 & _).
  apply geotiff_to_json_inv in Hcoarse
    as (r2 & d2 & Hin2 & Hd2 & Hlat2 & Hlon2 & Hh2 & _).
  assert (r1 = r) as -> by congruence.
  assert (r2 = r) as -> by congruence.
  rewrite getitem_step2_pos in Hd1, Hd2 by assumption.
  rewrite getitem_step_pos in Hlat1, Hlon1, Hlat2, Hlon2 by assumption.
  injection Hd1 as <-. injection Hd2 as <-.
  injection Hlat1 as <-. injection Hlon1 as <-.
  injection Hlat2 as <-. injection Hlon2 as <-.
  intros i j. rewrite Hh1, Hh2. simpl.
  rewrite !strided_cell, !strided_lookup by assumption.
  replace (Z.to_nat (k * m)) with (Z.to_nat k * Z.to_nat m) by lia.
  replace (i * (Z.to_nat k * Z.to_nat m)) with (i * Z.to_nat m * Z.to_nat k)
    by lia.
  replace (j * (Z.to_nat k * Z.to_nat m)) with (j * Z.to_nat m * Z.to_nat k)
    by lia.
  repeat split.
Qed.

Lemma concat_nils {A} (l : list (list A)) :
  Forall (fun row => row = []) l -> concat l = [].
Proof.
  induction 1 as [|row l -> _ IH]; simpl; [reflexivity|assumption].
Qed.

Lemma strided_nil {A} k : Np.strided k (@nil A) = [].
Proof. unfold Np.strided. destruct (0 <? k)%Z; reflexivity. Qed.

Lemma strided_elem_of {A} k (l : list A) x : x ∈ Np.strided k l -> x ∈ l.
Proof.
  unfold Np.strided. intros Hx.
  destruct (0 <? k)%Z;
    apply list_elem_of_lookup in Hx as [i Hi];
    rewrite every_lookup in Hi;
    apply list_elem_of_lookup_2 in Hi; [assumption|].
  apply list_elem_of_In in Hi. apply in_rev in Hi.
  apply list_elem_of_In. assumption.
Qed.

(** X4.  A raster without rows or without columns makes
    [geotiff_to_json] raise [ValueError], whatever the stride: the slice
    raises it at the stride 0, and [np.nanmin] raises it on the empty grid
    otherwise. *)
Theorem geotiff_to_json_empty_raster inp out k w r :
  w !! inp = Some (GeoTIFF r) ->
  Xr.wf_DataArray r ->
  fst (Np.shape (Xr.values r)) = 0 \/ snd (Np.shape (Xr.values r)) = 0 ->
  geotiff_to_json E inp out k w = Raise ValueError.
Proof.
  intros Hin ([Hn Hm] & _) Hempty. unfold geotiff_to_json.
  erewrite bind_run by (apply open_rasterio_Ok; split; [exact Hin|reflexivity]).
  unfold Np.getitem_step2, Np.getitem_step.
  destruct (k =? 0)%Z; [reflexivity|].
  cbv beta iota delta [mbind M_bind lift].
  unfold Np.nanmin, Np.reduce. simpl Np.rows.
  rewrite concat_nils; [reflexivity|].
  apply Forall_forall. intros row Hrow.
  apply list_elem_of_fmap in Hrow as (row0 & -> & Hrow0).
  apply strided_elem_of in Hrow0.
  destruct Hempty as [H0|H0].
  - rewrite H0 in Hn. apply nil_length_inv in Hn. rewrite Hn in Hrow0.
    apply not_elem_of_nil in Hrow0. contradiction.
  - rewrite Forall_forall in Hm. specialize (Hm _ Hrow0).
    rewrite H0 in Hm. apply nil_length_inv in Hm. rewrite Hm.
    apply strided_nil.
Qed.

(** X5.  On a raster whose cells are all NaN, [geotiff_to_json] still
    returns and writes the file; [minHeight] and [maxHeight] are then
    NaN. *)
Theorem geotiff_to_json_all_nan inp out k w r :
  w !! inp = Some (GeoTIFF r) ->
  Xr.wf_DataArray r ->
  0 < fst (Np.shape (Xr.values r)) ->
  0 < snd (Np.shape (Xr.values r)) ->
  (1 <= k)%Z ->
  (forall d, writer E out (Json d) = Stored) ->
  Forall (Forall (fun v => isnan v = true)) (Np.rows (Xr.values r)) ->
  exists res,
    geotiff_to_json E inp out k w = Ok (res, <[out := Json res]> w) /\
    isnan (minHeight res) = true /\ isnan (maxHeight res) = true.
Proof.
  intros Hin Hwf Hr Hc Hk Hwr Hnan.
  destruct (geotiff_to_json_returns E inp out k w r Hin Hwf Hr Hc Hk Hwr)
    as [res Hrun].
  exists res. split; [exact Hrun|].
  apply geotiff_to_json_inv in Hrun
    as (r' & data & Hin' & Hdata & _ & _ & _ & _ & Hmin & Hmax & _).
  assert (r' = r) as -> by congruence.
  rewrite getitem_step2_pos in Hdata by assumption. injection Hdata as <-.
  assert (Hcells : forall v,
             In v (concat (map (Np.strided k)
                             (Np.strided k (Np.rows (Xr.values r))))) ->
             isnan v = true).
  { intros v Hv. apply cell_In in Hv as (i & j & Hv).
    rewrite strided_cell in Hv by assumption. unfold cell in Hv.
    destruct (Np.rows (Xr.values r) !! (i * Z.to_nat k)) as [row|] eqn:Hrow;
      [|discriminate].
    simpl in Hv. rewrite Forall_forall in Hnan.
    apply list_elem_of_lookup_2 in Hrow. specialize (Hnan _ Hrow).
    rewrite Forall_forall in Hnan. apply Hnan.
    eapply list_elem_of_lookup_2. eassumption. }
  apply nanmin_spec in Hmin as [Hmin _]. apply nanmax_spec in Hmax as [Hmax _].
  split; apply Hcells; assumption.
Qed.


Lemma every_map {A B} (f : A -> B) gap l : forall skip,
  Np.every gap skip (map f l) = map f (Np.every gap skip l).
Proof.
  induction l as [|x l IH]; intros skip; simpl; [reflexivity|].
  destruct skip as [|s]; simpl; [f_equal|]; apply IH.
Qed.

Lemma strided_neg {A} k (l : list A) :
  (k <= -1)%Z -> Np.strided k l = Np.strided (- k) (rev l).
Proof.
  intros Hk. unfold Np.strided.
  destruct (Z.ltb_spec 0 k); [lia|].
  destruct (Z.ltb_spec 0 (- k)); [reflexivity|lia].
Qed.

Lemma rev_lookup {A} (l : list A) i :
  i < length l -> rev l !! i = l !! (length l - S i).
Proof. rewrite rev_alt. apply reverse_lookup. Qed.

Lemma strided_neg_lookup {A} k (l : list A) i :
  (k <= -1)%Z -> i * Z.to_nat (- k) < length l ->
  Np.strided k l !! i = l !! (length l - S (i * Z.to_nat (- k))).
Proof.
  intros Hk Hi. rewrite strided_neg, strided_lookup by lia.
  apply rev_lookup. assumption.
Qed.

Lemma strided_length_any {A} k (l : list A) :
  k <> 0%Z ->
  length (Np.strided k l) = ceil_div (length l) (Z.to_nat (Z.abs k)).
Proof.
  intros Hk. destruct (Z.le_gt_cases 1 k).
  - rewrite strided_length, Z.abs_eq by lia. reflexivity.
  - rewrite strided_neg, strided_length, length_rev, Z.abs_neq by lia.
    reflexivity.
Qed.

Lemma slice_len_any n k :
  k <> 0%Z -> Np.slice_len n k = ceil_div n (Z.to_nat (Z.abs k)).
Proof.
  intros Hk. rewrite <- (slice_len_ceil n (Z.abs k)) by lia.
  unfold Np.slice_len. rewrite Z.abs_idemp. reflexivity.
Qed.

Lemma getitem_step2_any k a :
  k <> 0%Z ->
  Np.getitem_step2 k a =
  Ok {| Np.shape := (ceil_div (fst (Np.shape a)) (Z.to_nat (Z.abs k)),
                     ceil_div (snd (Np.shape a)) (Z.to_nat (Z.abs k)));
        Np.rows := map (Np.strided k) (Np.strided k (Np.rows a)) |}.
Proof.
  intros Hk. unfold Np.getitem_step2.
  destruct (Z.eqb_spec k 0); [lia|].
  rewrite !slice_len_any by assumption. reflexivity.
Qed.

Lemma getitem_step_any {A} k (l : list A) :
  k <> 0%Z -> Np.getitem_step k l = Ok (Np.strided k l).
Proof.
  intros Hk. unfold Np.getitem_step. destruct (Z.eqb_spec k 0); [lia|].
  reflexivity.
Qed.

(** On a raster with a row and a column every stride but 0 leaves a
    datum on each axis and in the grid, so that the reductions succeed. *)
Lemma geotiff_to_json_reductions k r :
  Xr.wf_DataArray r ->
  0 < fst (Np.shape (Xr.values r)) ->
  0 < snd (Np.shape (Xr.values r)) ->
  k <> 0%Z ->
  exists data lats lons mn mx a1 a2 a3 a4,
    Np.getitem_step2 k (Xr.values r) = Ok data /\
    Np.getitem_step k (Xr.latitude r) = Ok lats /\
    Np.getitem_step k (Xr.longitude r) = Ok lons /\
    Np.nanmin data = Ok mn /\ Np.nanmax data = Ok mx /\
    Np.amin lats = Ok a1 /\ Np.amax lats = Ok a2 /\
    Np.amin lons = Ok a3 /\ Np.amax lons = Ok a4.
Proof.
  intros ([Hn Hm] & Hlat & Hlon) Hrows Hcols Hk.
  assert (Hkn : 0 < Z.to_nat (Z.abs k)) by lia.
  pose proof (ceil_div_pos _ _ Hrows Hkn) as Hr'.
  pose proof (ceil_div_pos _ _ Hcols Hkn) as Hc'.
  set (rows' := map (Np.strided k) (Np.strided k (Np.rows (Xr.values r)))).
  assert (Hne : 0 < length (concat rows')).
  { assert (Hlen : length rows' =
                   ceil_div (fst (Np.shape (Xr.values r))) (Z.to_nat (Z.abs k))).
    { unfold rows'. rewrite length_map, strided_length_any, Hn by assumption.
      reflexivity. }
    destruct rows' as [|row rest] eqn:Hrows'; simpl in *; [lia|].
    assert (Hrow : row ∈ rows') by (rewrite Hrows'; left).
    unfold rows' in Hrow.
    apply list_elem_of_fmap in Hrow as (row0 & -> & Hrow0).
    apply strided_elem_of in Hrow0.
    rewrite Forall_forall in Hm. specialize (Hm _ Hrow0).
    rewrite length_app, strided_length_any, Hm by assumption. lia. }
  destruct (reduce_nonempty Np.fmin _ Hne) as [mn Hmn].
  destruct (reduce_nonempty Np.fmax _ Hne) as [mx Hmx].
  destruct (reduce_nonempty Np.minimum (Np.strided k (Xr.latitude r))) as [a1 Ha1].
  { rewrite strided_length_any, Hlat by assumption. assumption. }
  destruct (reduce_nonempty Np.maximum (Np.strided k (Xr.latitude r))) as [a2 Ha2].
  { rewrite strided_length_any, Hlat by assumption. assumption. }
  destruct (reduce_nonempty Np.minimum (Np.strided k (Xr.longitude r))) as [a3 Ha3].
  { rewrite strided_length_any, Hlon by assumption. assumption. }
  destruct (reduce_nonempty Np.maximum (Np.strided k (Xr.longitude r))) as [a4 Ha4].
  { rewrite strided_length_any, Hlon by assumption. assumption. }
  exists {| Np.shape := (ceil_div (fst (Np.shape (Xr.values r))) (Z.to_nat (Z.abs k)),
                         ceil_div (snd (Np.shape (Xr.values r))) (Z.to_nat (Z.abs k)));
            Np.rows := rows' |},
    (Np.strided k (Xr.latitude r)), (Np.strided k (Xr.longitude r)),
    mn, mx, a1, a2, a3, a4.
  split; [apply getitem_step2_any; assumption|].
  split; [apply getitem_step_any; assumption|].
  split; [apply getitem_step_any; assumption|].
  repeat split; assumption.
Qed.

Lemma geotiff_to_json_returns_any inp out k w r :
  w !! inp = Some (GeoTIFF r) ->
  Xr.wf_DataArray r ->
  0 < fst (Np.shape (Xr.values r)) ->
  0 < snd (Np.shape (Xr.values r)) ->
  k <> 0%Z ->
  (forall d, writer E out (Json d) = Stored) ->
  exists res,
    geotiff_to_json E inp out k w = Ok (res, <[out := Json res]> w).
Proof.
  intros Hin Hwf Hrows Hcols Hk Hwr.
  destruct (geotiff_to_json_reductions k r Hwf Hrows Hcols Hk)
    as (data & lats & lons & mn & mx & a1 & a2 & a3 & a4 &
        Hd & Hla & Hlo & Hmn & Hmx & Ha1 & Ha2 & Ha3 & Ha4).
  eexists. unfold geotiff_to_json.
  erewrite bind_run by (apply open_rasterio_Ok; split; [exact Hin|reflexivity]).
  rewrite Hd, Hla, Hlo.
  cbv beta iota delta [mbind M_bind lift].
  rewrite Hmn, Hmx, Ha1, Ha2, Ha3, Ha4.
  cbv beta iota delta [json_dump write stat mret M_ret].
  rewrite Hwr. cbv beta iota zeta. rewrite lookup_insert_eq. reflexivity.
Qed.

(** X6.  A negative stride [k <= -1] is accepted, and samples from the
    last row and column backwards: with [n = -k], the shape is
    [(ceil (nrows / n), ceil (ncols / n))], entry [i] of [lats] is the
    latitude of the row [nrows - 1 - i n], entry [j] of [lons] is the
    longitude of the column [ncols - 1 - j n], and cell [(i, j)] of
    [heights] is the raster cell of that row and column. *)
Theorem geotiff_to_json_reversed inp out k w r :
  let nrows := fst (Np.shape (Xr.values r)) in
  let ncols := snd (Np.shape (Xr.values r)) in
  let n := Z.to_nat (- k) in
  w !! inp = Some (GeoTIFF r) ->
  Xr.wf_DataArray r ->
  0 < nrows -> 0 < ncols ->
  (k <= -1)%Z ->
  (forall d, writer E out (Json d) = Stored) ->
  exists res,
    geotiff_to_json E inp out k w = Ok (res, <[out := Json res]> w) /\
    shape res = [ceil_div nrows n; ceil_div ncols n] /\
    length (lats res) = ceil_div nrows n /\
    length (lons res) = ceil_div ncols n /\
    (forall i, i * n < nrows ->
       lats res !! i = Xr.latitude r !! (nrows - S (i * n))) /\
    (forall j, j * n < ncols ->
       lons res !! j = Xr.longitude r !! (ncols - S (j * n))) /\
    (forall i j, i * n < nrows -> j * n < ncols ->
       cell (heights res) i j =
       cell (Np.rows (Xr.values r)) (nrows - S (i * n)) (ncols - S (j * n))).
Proof.
  intros nrows ncols n Hin Hwf Hr Hc Hk Hwr.
  destruct (geotiff_to_json_returns_any inp out k w r Hin Hwf Hr Hc
              ltac:(lia) Hwr) as [res Hrun].
  exists res. split; [exact Hrun|].
  apply geotiff_to_json_inv in Hrun
    as (r' & data & Hin' & Hdata & Hlat & Hlon & Hh & Hs & _).
  assert (r' = r) as -> by congruence.
  rewrite getitem_step2_any in Hdata by lia.
  rewrite getitem_step_any in Hlat, Hlon by lia.
  injection Hdata as <-. injection Hlat as <-. injection Hlon as <-.
  destruct Hwf as ([Hn Hm] & Hla & Hlo).
  fold nrows in Hn, Hla. fold ncols in Hm, Hlo.
  rewrite Hs, Hh. unfold Np.shape_list. simpl.
  replace (Z.to_nat (Z.abs k)) with n by (unfold n; lia).
  rewrite !strided_length_any, Hla, Hlo by lia.
  replace (Z.to_nat (Z.abs k)) with n by (unfold n; lia).
  split; [reflexivity|]. split; [reflexivity|]. split; [reflexivity|].
  split; [|split].
  - intros i Hi. rewrite strided_neg_lookup by (fold n; lia).
    fold n. rewrite Hla. reflexivity.
  - intros j Hj. rewrite strided_neg_lookup by (fold n; lia).
    fold n. rewrite Hlo. reflexivity.
  - intros i j Hi Hj. unfold cell.
    rewrite list_lookup_fmap, strided_neg_lookup by (fold n; lia).
    fold n. rewrite Hn.
    destruct (Np.rows (Xr.values r) !! (nrows - S (i * n))) as [row|] eqn:Hrow;
      simpl; [|reflexivity].
    rewrite Forall_forall in Hm.
    pose proof (Hm _ (list_elem_of_lookup_2 _ _ _ Hrow)) as Hlen.
    rewrite strided_neg_lookup by (fold n; lia).
    fold n. rewrite Hlen. reflexivity.
Qed.

(** X7.  Sampling more coarsely never widens the range of heights:
    when the grid at the stride [k m] holds a cell that is not NaN, then
    [minHeight] at the stride [k] is at most [minHeight] at the stride
    [k m], which is at most [maxHeight] at the stride [k m], which is at
    most [maxHeight] at the stride [k].  With [k = 1] the outer bounds are
    those of the whole raster. *)
Theorem geotiff_to_json_range inp out k m w r :
  w !! inp = Some (GeoTIFF r) ->
  Xr.wf_DataArray r ->
  0 < fst (Np.shape (Xr.values r)) ->
  0 < snd (Np.shape (Xr.values r)) ->
  (1 <= k)%Z -> (1 <= m)%Z ->
  (forall d, writer E out (Json d) = Stored) ->
  (exists i j v,
      cell (Np.rows (Xr.values r)) (i * Z.to_nat (k * m)) (j * Z.to_nat (k * m))
        = Some v /\ isnan v = false) ->
  exists fine coarse,
    geotiff_to_json E inp out k w = Ok (fine, <[out := Json fine]> w) /\
    geotiff_to_json E inp out (k * m) w = Ok (coarse, <[out := Json coarse]> w) /\
    (minHeight fine <=? minHeight coarse)%float = true /\
    (minHeight coarse <=? maxHeight coarse)%float = true /\
    (maxHeight coarse <=? maxHeight fine)%float = true.
Proof.
  intros Hin Hwf Hr Hc Hk Hm Hwr (i0 & j0 & v0 & Hv0 & Hnan0).
  assert (Hkm : (1 <= k * m)%Z) by nia.
  destruct (geotiff_to_json_returns E inp out k w r Hin Hwf Hr Hc Hk Hwr)
    as [fine Hfine].
  destruct (geotiff_to_json_returns E inp out (k * m) w r Hin Hwf Hr Hc Hkm Hwr)
    as [coarse Hcoarse].
  exists fine, coarse. split; [exact Hfine|]. split; [exact Hcoarse|].
  apply geotiff_to_json_inv in Hfine
    as (r1 & d1 & Hin1 & Hd1 & _ & _ & _ & _ & Hmin1 & Hmax1 & _).
  apply geotiff_to_json_inv in Hcoarse
    as (r2 & d2 & Hin2 & Hd2 & _ & _ & _ & _ & Hmin2 & Hmax2 & _).
  assert (r1 = r) as -> by congruence.
  assert (r2 = r) as -> by congruence.
  rewrite getitem_step2_pos in Hd1, Hd2 by assumption.
  injection Hd1 as <-. injection Hd2 as <-.
  apply nanmin_spec in Hmin1 as [_ Hlow1]. apply nanmax_spec in Hmax1 as [_ Hup1].
  apply nanmin_spec in Hmin2 as [Hmn2 Hlow2].
  apply nanmax_spec in Hmax2 as [Hmx2 Hup2].
  simpl in Hlow1, Hup1, Hmn2, Hlow2, Hmx2, Hup2.
  assert (Hsub : forall v,
             In v (concat (map (Np.strided (k * m))
                             (Np.strided (k * m) (Np.rows (Xr.values r))))) ->
             In v (concat (map (Np.strided k)
                             (Np.strided k (Np.rows (Xr.values r)))))).
  { intros v Hv. apply cell_In in Hv as (i & j & Hv). apply cell_In.
    exists (i * Z.to_nat m), (j * Z.to_nat m).
    rewrite strided_cell in Hv |- * by assumption.
    replace (Z.to_nat (k * m)) with (Z.to_nat k * Z.to_nat m) in Hv by lia.
    rewrite <- Hv. f_equal; lia. }
  assert (Hin0 : In v0 (concat (map (Np.strided (k * m))
                                  (Np.strided (k * m) (Np.rows (Xr.values r)))))).
  { apply cell_In. exists i0, j0. rewrite strided_cell by assumption.
    exact Hv0. }
  pose proof (Hlow2 v0 Hin0 Hnan0) as Hlo. pose proof (Hup2 v0 Hin0 Hnan0) as Hup.
  destruct (leb_not_nan _ _ Hlo) as [Hmnn _].
  destruct (leb_not_nan _ _ Hup) as [_ Hmxn].
  split; [apply Hlow1; [apply Hsub|]; assumption|].
  split; [eapply leb_trans; eassumption|].
  apply Hup1; [apply Hsub|]; assumption.
Qed.

(** X8.  On a raster with at least one row and one column and at a
    stride other than 0, nothing in [geotiff_to_json] raises but the
    writing of the file: an exception is either the one the writer
    raised, or the [FileNotFoundError] of [stat] when the writer returned
    without storing a file and none was there before. *)
Theorem geotiff_to_json_raises inp out k w r e :
  w !! inp = Some (GeoTIFF r) ->
  Xr.wf_DataArray r ->
  0 < fst (Np.shape (Xr.values r)) ->
  0 < snd (Np.shape (Xr.values r)) ->
  k <> 0%Z ->
  geotiff_to_json E inp out k w = Raise e ->
  (exists d, writer E out (Json d) = Fault e) \/
  (e = FileNotFoundError /\ (exists d, writer E out (Json d) = Lost) /\
   w !! out = None).
Proof.
  intros Hin Hwf Hrows Hcols Hk.
  destruct (geotiff_to_json_reductions k r Hwf Hrows Hcols Hk)
    as (data & lats & lons & mn & mx & a1 & a2 & a3 & a4 &
        Hd & Hla & Hlo & Hmn & Hmx & Ha1 & Ha2 & Ha3 & Ha4).
  unfold geotiff_to_json.
  erewrite bind_run by (apply open_rasterio_Ok; split; [exact Hin|reflexivity]).
  rewrite Hd, Hla, Hlo.
  cbv beta iota delta [mbind M_bind lift].
  rewrite Hmn, Hmx, Ha1, Ha2, Ha3, Ha4.
  cbv beta iota delta [json_dump write].
  destruct (writer E out _) eqn:Hwr; cbv beta iota zeta delta [stat mret M_ret].
  - rewrite lookup_insert_eq. discriminate.
  - destruct (w !! out) eqn:Hout; [discriminate|].
    intros [= <-]. right. eauto.
  - intros [= <-]. left. eauto.
Qed.


Lemma every_skipped {A} gap (l : list A) : forall skip,
  length l <= skip -> Np.every gap skip l = [].
Proof.
  induction l as [|x l IH]; intros skip H; simpl; [reflexivity|].
  destruct skip as [|s]; simpl in H; [lia|]. apply IH. lia.
Qed.

Lemma strided_single {A} k x (t : list A) :
  (Z.of_nat (length t) < k)%Z -> Np.strided k (x :: t) = [x].
Proof.
  intros Hk. unfold Np.strided.
  destruct (Z.ltb_spec 0 k); [|lia]. simpl.
  rewrite every_skipped by lia. reflexivity.
Qed.

Lemma ceil_div_one n k : 0 < n -> n <= k -> ceil_div n k = 1.
Proof.
  intros Hn Hk.
  pose proof (ceil_div_pos n k Hn ltac:(lia)).
  pose proof (proj2 (ceil_div_le n k 1 ltac:(lia)) ltac:(lia)). lia.
Qed.

(** X9.  A stride that is at least the number of rows and the number
    of columns keeps the first cell only: [heights] is [[v]] for the
    raster cell [v] of row 0 and column 0, [lats] and [lons] hold the
    first latitude and the first longitude, the shape is (1, 1), and both
    extrema are [v]. *)
Theorem geotiff_to_json_single_cell inp out k w r :
  w !! inp = Some (GeoTIFF r) ->
  Xr.wf_DataArray r ->
  0 < fst (Np.shape (Xr.values r)) ->
  0 < snd (Np.shape (Xr.values r)) ->
  (Z.of_nat (fst (Np.shape (Xr.values r))) <= k)%Z ->
  (Z.of_nat (snd (Np.shape (Xr.values r))) <= k)%Z ->
  (forall d, writer E out (Json d) = Stored) ->
  exists res v lat lon,
    geotiff_to_json E inp out k w = Ok (res, <[out := Json res]> w) /\
    cell (Np.rows (Xr.values r)) 0 0 = Some v /\
    Xr.latitude r !! 0 = Some lat /\
    Xr.longitude r !! 0 = Some lon /\
    heights res = [[v]] /\ lats res = [lat] /\ lons res = [lon] /\
    shape res = [1; 1] /\ minHeight res = v /\ maxHeight res = v.
Proof.
  intros Hin Hwf Hr Hc Hkr Hkc Hwr.
  assert (Hk : (1 <= k)%Z) by lia.
  destruct (geotiff_to_json_returns E inp out k w r Hin Hwf Hr Hc Hk Hwr)
    as [res Hrun].
  pose proof Hrun as Hinv.
  apply geotiff_to_json_inv in Hinv
    as (r' & data & Hin' & Hdata & Hlat & Hlon & Hh & Hs & Hmin & Hmax & _).
  assert (r' = r) as -> by congruence.
  rewrite getitem_step2_pos in Hdata by assumption.
  rewrite getitem_step_pos in Hlat, Hlon by assumption.
  injection Hlat as Hlat. injection Hlon as Hlon.
  destruct Hwf as ([Hn Hm] & Hla & Hlo).
  destruct (Np.rows (Xr.values r)) as [|row rest] eqn:Hrows;
    [simpl in Hn; lia|].
  apply Forall_cons in Hm as [Hrow _].
  destruct row as [|v row]; [simpl in Hrow; lia|].
  destruct (Xr.latitude r) as [|lat lats0]; [simpl in Hla; lia|].
  destruct (Xr.longitude r) as [|lon lons0]; [simpl in Hlo; lia|].
  simpl in Hn, Hrow, Hla, Hlo.
  rewrite strided_single in Hlat by lia.
  rewrite strided_single in Hlon by lia.
  rewrite strided_single in Hdata by lia.
  simpl in Hdata. rewrite strided_single in Hdata by lia.
  rewrite !ceil_div_one in Hdata by lia.
  injection Hdata as <-. simpl in Hh, Hs.
  unfold Np.nanmin, Np.nanmax in Hmin, Hmax. simpl in Hmin, Hmax.
  injection Hmin as Hmin. injection Hmax as Hmax.
  exists res, v, lat, lon. split; [exact Hrun|].
  repeat split; auto.
Qed.

End more_sampling.

(** ** The strict order of binary64 values *)

Section float_strict_order.

Import F64.
Local Open Scope float_scope.

Lemma SFltb_asym x y : SFltb x y = true -> SFltb y x = false.
Proof.
  unfold SFltb.
  destruct x as [s1|s1| |s1 m1 e1], y as [s2|s2| |s2 m2 e2];
    simpl; try discriminate; try reflexivity;
    repeat match goal with s : bool |- _ => destruct s end; simpl;
    try discriminate; try reflexivity.
  all: fold (Pos.compare m1 m2) (Pos.compare m2 m1).
  all: destruct (Z.compare_spec e1 e2), (Z.compare_spec e2 e1);
       try lia; try discriminate; try reflexivity; subst;
       destruct (Pos.compare_spec m1 m2), (Pos.compare_spec m2 m1);
       simpl; try lia; try discriminate; try reflexivity.
Qed.

Lemma SFltb_not_nan x y :
  SFltb x y = true -> x <> S754_nan /\ y <> S754_nan.
Proof.
  unfold SFltb. destruct x, y; simpl; try discriminate; split; congruence.
Qed.

Lemma SFnot_ltb_leb x y :
  x <> S754_nan -> y <> S754_nan -> SFltb y x = false -> SFleb x y = true.
Proof.
  unfold SFltb, SFleb.
  destruct x as [s1|s1| |s1 m1 e1], y as [s2|s2| |s2 m2 e2];
    simpl; try congruence;
    repeat match goal with s : bool |- _ => destruct s end; simpl;
    try congruence.
  all: fold (Pos.compare m1 m2) (Pos.compare m2 m1).
  all: intros _ _;
       destruct (Z.compare_spec e1 e2), (Z.compare_spec e2 e1);
       try lia; try discriminate; try reflexivity; subst;
       destruct (Pos.compare_spec m1 m2), (Pos.compare_spec m2 m1);
       simpl; try lia; try discriminate; try reflexivity.
Qed.

Lemma ltb_asym x y : (x <? y) = true -> (y <? x) = false.
Proof. rewrite !FloatAxioms.ltb_spec. apply SFltb_asym. Qed.

Lemma ltb_not_nan x y :
  (x <? y) = true -> isnan x = false /\ isnan y = false.
Proof.
  rewrite FloatAxioms.ltb_spec, !isnan_false. apply SFltb_not_nan.
Qed.

Lemma not_ltb_leb x y :
  isnan x = false -> isnan y = false -> (y <? x) = false -> (x <=? y) = true.
Proof.
  rewrite !isnan_false, FloatAxioms.ltb_spec, FloatAxioms.leb_spec.
  apply SFnot_ltb_leb.
Qed.

(** The order of numpy's sorts is asymmetric. *)
Lemma sort_lt_asym x y : Np.sort_lt x y = true -> Np.sort_lt y x = false.
Proof.
  unfold Np.sort_lt. intros H.
  apply orb_true_iff in H as [H|H].
  - destruct (ltb_not_nan _ _ H) as [Hx Hy].
    rewrite (ltb_asym _ _ H), Hx. reflexivity.
  - apply andb_true_iff in H as [Hy Hx]. apply negb_true_iff in Hx.
    rewrite Hx. simpl. rewrite orb_false_r.
    destruct (y <? x) eqn:Hlt; [|reflexivity].
    apply ltb_not_nan in Hlt as [Hy' _]. congruence.
Qed.

End float_strict_order.

(** ** Sorting an axis *)

Section sorting.

Import F64.

(** [a] may stand before [b] in a sorted list of keyed positions. *)
Local Abbreviation before :=
  (fun a b : nat * float => Np.sort_lt (snd b) (snd a) = false).

Local Abbreviation sorted_pairs keys :=
  (fold_left (fun acc x => Np.insert_key x acc) (imap pair keys) []).

Lemma insert_key_Permutation x l : Np.insert_key x l ≡ₚ x :: l.
Proof.
  induction l as [|y l IH]; simpl; [reflexivity|].
  destruct (Np.sort_lt (snd x) (snd y)); [reflexivity|].
  rewrite IH. apply perm_swap.
Qed.

Lemma fold_insert_key_Permutation l : forall acc,
  fold_left (fun acc x => Np.insert_key x acc) l acc ≡ₚ l ++ acc.
Proof.
  induction l as [|x l IH]; intros acc; simpl; [reflexivity|].
  rewrite IH, insert_key_Permutation.
  symmetry. apply Permutation_middle.
Qed.

Lemma insert_key_Sorted x l :
  Sorted before l -> Sorted before (Np.insert_key x l).
Proof.
  induction 1 as [|y l Hl IH Hhd]; simpl.
  - repeat constructor.
  - destruct (Np.sort_lt (snd x) (snd y)) eqn:Hxy.
    + constructor; [constructor; assumption|].
      constructor. apply sort_lt_asym. assumption.
    + constructor; [assumption|].
      destruct Hhd as [|z l Hz]; simpl.
      * constructor. assumption.
      * destruct (Np.sort_lt (snd x) (snd z)); constructor; assumption.
Qed.

Lemma sorted_pairs_Sorted l : forall acc,
  Sorted before acc ->
  Sorted before (fold_left (fun acc x => Np.insert_key x acc) l acc).
Proof.
  induction l as [|x l IH]; intros acc Hacc; simpl; [assumption|].
  apply IH, insert_key_Sorted. assumption.
Qed.

Lemma Sorted_adjacent {A} (R : A -> A -> Prop) l :
  Sorted R l ->
  forall j a b, l !! j = Some a -> l !! S j = Some b -> R a b.
Proof.
  induction 1 as [|x l Hl IH Hhd]; intros j a b Ha Hb; [discriminate|].
  destruct j as [|j]; simpl in *.
  - injection Ha as <-. destruct Hhd as [|y l Hy]; [discriminate|].
    simpl in Hb. injection Hb as <-. assumption.
  - eapply IH; eassumption.
Qed.

Lemma imap_pair_fst (keys : list float) :
  map fst (imap pair keys) = seq 0 (length keys).
Proof.
  rewrite fmap_imap.
  transitivity ((fun i : nat => i) <$> seq 0 (length keys)).
  - rewrite <- imap_seq_0. apply imap_ext. reflexivity.
  - apply list_fmap_id.
Qed.

Lemma argsort_Permutation keys : Np.argsort keys ≡ₚ seq 0 (length keys).
Proof.
  unfold Np.argsort.
  rewrite fold_insert_key_Permutation, app_nil_r.
  rewrite imap_pair_fst. reflexivity.
Qed.

Lemma argsort_length keys : length (Np.argsort keys) = length keys.
Proof. rewrite argsort_Permutation. apply length_seq. Qed.

Lemma argsort_bound keys :
  Forall (fun i => i < length keys) (Np.argsort keys).
Proof.
  rewrite argsort_Permutation. apply Forall_forall. intros i Hi.
  apply list_elem_of_In, in_seq in Hi. lia.
Qed.

Lemma take_lookup {A} idx (l : list A) :
  Forall (fun i => i < length l) idx ->
  forall j, Np.take idx l !! j = idx !! j ≫= fun i => l !! i.
Proof.
  unfold Np.take. induction 1 as [|i idx Hi _ IH]; intros j; [reflexivity|].
  apply lookup_lt_is_Some in Hi as [x Hx]. simpl. rewrite Hx.
  destruct j as [|j]; simpl; [symmetry; assumption|apply IH].
Qed.

Lemma take_length {A} idx (l : list A) :
  Forall (fun i => i < length l) idx -> length (Np.take idx l) = length idx.
Proof.
  unfold Np.take. induction 1 as [|i idx Hi _ IH]; [reflexivity|].
  apply lookup_lt_is_Some in Hi as [x Hx]. simpl. rewrite Hx. simpl.
  f_equal. exact IH.
Qed.

(** The keys taken at the sorted positions are the keys of the sorted
    pairs. *)
Lemma take_argsort_keys keys :
  Np.take (Np.argsort keys) keys = map snd (sorted_pairs keys).
Proof.
  unfold Np.argsort, Np.take.
  assert (H : Forall (fun p : nat * float => keys !! fst p = Some (snd p))
                (sorted_pairs keys)).
  { rewrite fold_insert_key_Permutation, app_nil_r.
    apply Forall_forall. intros p Hp.
    apply elem_of_lookup_imap in Hp as (i & x & -> & Hx). exact Hx. }
  induction H as [|p l Hp _ IH]; [reflexivity|].
  simpl. rewrite Hp. simpl. f_equal. exact IH.
Qed.

(** The sorted axis is in the order of numpy's sorts. *)
Lemma take_argsort_sorted keys j x y :
  Np.take (Np.argsort keys) keys !! j = Some x ->
  Np.take (Np.argsort keys) keys !! S j = Some y ->
  Np.sort_lt y x = false.
Proof.
  rewrite take_argsort_keys, !list_lookup_fmap.
  destruct (sorted_pairs keys !! j) as [a|] eqn:Ha; [|discriminate].
  destruct (sorted_pairs keys !! S j) as [b|] eqn:Hb; [|discriminate].
  simpl. intros [= <-] [= <-].
  apply (Sorted_adjacent before (sorted_pairs keys)) with (j := j);
    [|assumption|assumption].
  apply sorted_pairs_Sorted. constructor.
Qed.

End sorting.

(** ** The raster that [generate_geoid] writes *)

Section recentred_raster.

Import Spec F64.
Context (E : env).

Lemma recenter_length lons : length (recenter lons) = length lons.
Proof. apply length_map. Qed.

Lemma sortby_longitude_wf a :
  Xr.wf_DataArray a ->
  Xr.wf_DataArray (Xr.sortby_longitude a) /\
  Np.shape (Xr.values (Xr.sortby_longitude a)) = Np.shape (Xr.values a).
Proof.
  intros ([Hn Hm] & Hlat & Hlon).
  assert (Hidx : length (Np.argsort (Xr.longitude a)) =
                 snd (Np.shape (Xr.values a)))
    by (rewrite argsort_length; assumption).
  unfold Xr.sortby_longitude, Xr.wf_DataArray, Np.wf_ndarray. simpl.
  rewrite Hidx, length_map.
  split; [|destruct (Np.shape (Xr.values a)); reflexivity].
  split; [split|split]; try assumption.
  - apply Forall_forall. intros row Hrow.
    apply list_elem_of_fmap in Hrow as (row0 & -> & Hrow0).
    rewrite Forall_forall in Hm. specialize (Hm _ Hrow0).
    rewrite take_length, Hidx; [reflexivity|].
    rewrite Hm, <- Hlon. apply argsort_bound.
  - rewrite take_length, Hidx; [reflexivity|]. apply argsort_bound.
Qed.

Lemma generate_geoid_run n out w w0 array :
  EGM2008_geoid E n = Ok array ->
  (forall c, writer E out (GeoTIFF c) = Stored) ->
  mkdir (parent out) w = Ok (tt, w0) ->
  generate_geoid E n out w =
  Ok (tt, <[out := GeoTIFF (Xr.sortby_longitude
            (Xr.assign_longitude (recenter (Xr.longitude array)) array))]> w0).
Proof.
  intros Hsyn Hwr Hdir.
  unfold generate_geoid, save_geoid_as_geotiff, to_raster.
  rewrite Hsyn. cbv beta iota zeta delta [mbind M_bind lift].
  rewrite Hdir. unfold write. rewrite Hwr. reflexivity.
Qed.

(** X10.  [generate_geoid] rearranges the columns of the synthesised
    grid together with their longitudes: there is a permutation [idx] of
    the column numbers such that entry [j] of the longitude axis written
    is entry [idx j] of the recentred axis, and column [j] of the grid
    written is column [idx j] of the synthesised grid, in every row.  The
    latitudes and the shape are kept, and the axes of the raster written
    match its grid. *)
Theorem generate_geoid_columns n out w w0 array :
  EGM2008_geoid E n = Ok array ->
  Xr.wf_DataArray array ->
  (forall c, writer E out (GeoTIFF c) = Stored) ->
  mkdir (parent out) w = Ok (tt, w0) ->
  exists raster idx,
    generate_geoid E n out w = Ok (tt, <[out := GeoTIFF raster]> w0) /\
    Xr.wf_DataArray raster /\
    Np.shape (Xr.values raster) = Np.shape (Xr.values array) /\
    Xr.latitude raster = Xr.latitude array /\
    idx ≡ₚ seq 0 (snd (Np.shape (Xr.values array))) /\
    forall j c, idx !! j = Some c ->
      Xr.longitude raster !! j = recenter (Xr.longitude array) !! c /\
      forall i, cell (Np.rows (Xr.values raster)) i j =
                cell (Np.rows (Xr.values array)) i c.
Proof.
  intros Hsyn Hwf Hwr Hdir.
  set (moved := Xr.assign_longitude (recenter (Xr.longitude array)) array).
  assert (Hwf' : Xr.wf_DataArray moved).
  { destruct Hwf as (Hv & Hlat & Hlon). repeat split; try apply Hv;
      simpl; [assumption|]. rewrite recenter_length. assumption. }
  exists (Xr.sortby_longitude moved), (Np.argsort (Xr.longitude moved)).
  split; [apply generate_geoid_run; assumption|].
  destruct (sortby_longitude_wf moved Hwf') as [Hsorted Hshape].
  split; [assumption|]. split; [assumption|]. split; [reflexivity|].
  destruct Hwf' as ([Hn Hm] & Hlat & Hlon).
  split.
  { rewrite argsort_Permutation. rewrite Hlon. reflexivity. }
  intros j c Hc. split.
  - change (Xr.longitude (Xr.sortby_longitude moved))
      with (Np.take (Np.argsort (Xr.longitude moved)) (Xr.longitude moved)).
    rewrite take_lookup by apply argsort_bound.
    rewrite Hc. reflexivity.
  - intros i. unfold cell.
    change (Np.rows (Xr.values (Xr.sortby_longitude moved)))
      with (map (Np.take (Np.argsort (Xr.longitude moved)))
              (Np.rows (Xr.values array))).
    rewrite list_lookup_fmap.
    destruct (Np.rows (Xr.values array) !! i) as [row|] eqn:Hrow; simpl;
      [|reflexivity].
    rewrite Forall_forall in Hm.
    pose proof (Hm _ (list_elem_of_lookup_2 _ _ _ Hrow)) as Hlen.
    rewrite take_lookup.
    + simpl in Hc |- *. rewrite Hc. reflexivity.
    + rewrite Hlen, <- Hlon. apply argsort_bound.
Qed.

(** X11.  The longitude axis that [generate_geoid] writes is in
    ascending order: of two neighbouring longitudes the first is less than
    or equal to the second, and NaN values stand last.  Equal neighbours
    are possible, see [recenter_extended_axis]. *)
Theorem generate_geoid_sorted n out w w0 array :
  EGM2008_geoid E n = Ok array ->
  (forall c, writer E out (GeoTIFF c) = Stored) ->
  mkdir (parent out) w = Ok (tt, w0) ->
  exists raster,
    generate_geoid E n out w = Ok (tt, <[out := GeoTIFF raster]> w0) /\
    forall j x y,
      Xr.longitude raster !! j = Some x ->
      Xr.longitude raster !! S j = Some y ->
      (isnan x = true -> isnan y = true) /\
      (isnan y = false -> (x <=? y)%float = true).
Proof.
  intros Hsyn Hwr Hdir.
  eexists. split; [apply generate_geoid_run; eassumption|].
  simpl. intros j x y Hx Hy.
  pose proof (take_argsort_sorted _ _ _ _ Hx Hy) as Hord.
  unfold Np.sort_lt in Hord.
  apply orb_false_iff in Hord as [Hlt Hnan].
  assert (Hxy : isnan x = true -> isnan y = true).
  { intros Hxn. rewrite Hxn in Hnan. simpl in Hnan.
    apply negb_false_iff in Hnan. assumption. }
  split; [assumption|].
  intros Hyn. apply not_ltb_leb; [|assumption|assumption].
  destruct (isnan x); [|reflexivity].
  specialize (Hxy eq_refl). congruence.
Qed.

End recentred_raster.

(** ** Making the directory of an output *)

Section directories.

Import Spec.
Context (E : env).

Lemma mkdir1_Ok final q w u w' :
  mkdir1 final q w = Ok (u, w') <->
  (w !! q = None /\ w' = <[q := Dir]> w) \/ (w !! q = Some Dir /\ w' = w).
Proof.
  unfold mkdir1. destruct (w !! q) as [[]|]; split;
    try discriminate; try (intros [[? ?]|[? ?]]; discriminate).
  - intros [= <- <-]. auto.
  - intros [[? ?]|[_ ->]]; [discriminate|]. destruct u. reflexivity.
  - intros [= <- <-]. auto.
  - intros [[_ ->]|[? ?]]; [|discriminate]. destruct u. reflexivity.
Qed.

Lemma mkdir1_Raise final q w e :
  mkdir1 final q w = Raise e ->
  (exists n, w !! q = Some n /\ n <> Dir) /\
  (e = FileExistsError \/ e = NotADirectoryError).
Proof.
  unfold mkdir1. destruct (w !! q) as [[]|]; try discriminate;
    intros [= <-]; (split; [eexists; split; [reflexivity|discriminate]|]);
    destruct final; auto.
Qed.

Lemma app_cons_ne {A} (l : list A) c q : q <> [] -> l ++ c :: q <> l ++ [c].
Proof.
  intros Hq Heq. apply app_inv_head in Heq. injection Heq as Heq.
  contradiction.
Qed.

Lemma prefix_cons_nonempty {A} (q : list A) c rest :
  q <> [] -> q `prefix_of` c :: rest ->
  exists q', q = c :: q' /\ q' `prefix_of` rest.
Proof.
  intros Hq Hp. destruct q as [|x q']; [contradiction|].
  pose proof (prefix_cons_inv_1 _ _ _ _ Hp) as ->.
  exists q'. split; [reflexivity|]. eapply prefix_cons_inv_2. eassumption.
Qed.

(** What a successful [mkdir] found and what it leaves: every prefix of
    the path was missing or a directory and is a directory afterwards;
    what existed is kept, and no other path is touched. *)
Lemma mkdir_from_Ok rest : forall above w w',
  mkdir_from above rest w = Ok (tt, w') ->
  (forall q, q <> [] -> q `prefix_of` rest ->
     (w !! (above ++ q) = None \/ w !! (above ++ q) = Some Dir) /\
     w' !! (above ++ q) = Some Dir) /\
  (forall p n, w !! p = Some n -> w' !! p = Some n) /\
  (forall p, (forall q, q <> [] -> q `prefix_of` rest -> p <> above ++ q) ->
     w' !! p = w !! p).
Proof.
  induction rest as [|c rest IH]; intros above w w' H; simpl in H.
  - apply ret_Ok in H as [_ ->]. repeat split; auto.
    + apply prefix_nil_inv in H0. contradiction.
    + apply prefix_nil_inv in H0. contradiction.
  - apply bind_Ok in H as ([] & w1 & H1 & H2).
    apply mkdir1_Ok in H1. apply IH in H2 as (IH1 & IH2 & IH3).
    assert (Hkeep : forall p n, w !! p = Some n -> w1 !! p = Some n).
    { intros p n Hp. destruct H1 as [[Hnone ->]|[_ ->]]; [|assumption].
      rewrite lookup_insert_ne; [assumption|]. congruence. }
    assert (Hc : (w !! (above ++ [c]) = None \/ w !! (above ++ [c]) = Some Dir) /\
                 w1 !! (above ++ [c]) = Some Dir).
    { destruct H1 as [[Hnone ->]|[Hdir ->]].
      - split; [auto|apply lookup_insert_eq].
      - auto. }
    assert (Hother : forall p, p <> above ++ [c] -> w1 !! p = w !! p).
    { intros p Hp. destruct H1 as [[_ ->]|[_ ->]]; [|reflexivity].
      apply lookup_insert_ne. congruence. }
    split; [|split].
    + intros q Hq Hpre.
      destruct (prefix_cons_nonempty q c rest Hq Hpre) as (q' & -> & Hpre').
      destruct q' as [|x q'].
      * destruct Hc as [Hw Hw1]. split; [assumption|]. apply IH2. assumption.
      * replace (above ++ c :: x :: q') with ((above ++ [c]) ++ x :: q')
          by (rewrite <- app_assoc; reflexivity).
        destruct (IH1 (x :: q') ltac:(discriminate) Hpre') as [Hfree Hdir].
        split; [|assumption].
        rewrite Hother in Hfree; [assumption|].
        rewrite <- app_assoc. apply app_cons_ne. discriminate.
    + intros p n Hp. apply IH2, Hkeep. assumption.
    + intros p Hp. rewrite IH3.
      * apply Hother. apply (Hp [c]); [discriminate|].
        apply prefix_cons, prefix_nil.
      * intros q Hq Hpre. rewrite <- app_assoc. apply (Hp (c :: q));
          [discriminate|]. apply prefix_cons. assumption.
Qed.

Lemma mkdir_from_returns rest : forall above w,
  (forall q, q <> [] -> q `prefix_of` rest ->
     w !! (above ++ q) = None \/ w !! (above ++ q) = Some Dir) ->
  exists w', mkdir_from above rest w = Ok (tt, w').
Proof.
  induction rest as [|c rest IH]; intros above w Hfree; simpl.
  - eexists. reflexivity.
  - assert (H1 : exists w1, mkdir1 (bool_decide (rest = [])) (above ++ [c]) w
                            = Ok (tt, w1) /\
                            forall p, p <> above ++ [c] -> w1 !! p = w !! p).
    { destruct (Hfree [c] ltac:(discriminate)
                  ltac:(apply prefix_cons, prefix_nil)) as [Hn|Hd].
      - exists (<[above ++ [c] := Dir]> w). split.
        + apply mkdir1_Ok. auto.
        + intros p Hp. apply lookup_insert_ne. congruence.
      - exists w. split; [apply mkdir1_Ok; auto|reflexivity]. }
    destruct H1 as (w1 & H1 & Hother).
    destruct (IH (above ++ [c]) w1) as [w' Hw'].
    { intros q Hq Hpre. rewrite Hother.
      - rewrite <- app_assoc. apply (Hfree (c :: q)); [discriminate|].
        apply prefix_cons. assumption.
      - rewrite <- app_assoc. apply app_cons_ne. assumption. }
    exists w'. erewrite bind_run by eassumption. assumption.
Qed.

Lemma mkdir_from_Raise rest : forall above w e,
  mkdir_from above rest w = Raise e ->
  e = FileExistsError \/ e = NotADirectoryError.
Proof.
  induction rest as [|c rest IH]; intros above w e H; simpl in H;
    [discriminate|].
  apply bind_Raise in H as [H|([] & w1 & _ & H)].
  - apply mkdir1_Raise in H as [_ H]. assumption.
  - eapply IH. eassumption.
Qed.

(** Where every prefix is a directory, [mkdir] changes nothing
    ([exist_ok=True]). *)
Lemma mkdir_from_present rest : forall above w,
  (forall q, q <> [] -> q `prefix_of` rest -> w !! (above ++ q) = Some Dir) ->
  mkdir_from above rest w = Ok (tt, w).
Proof.
  induction rest as [|c rest IH]; intros above w Hdir; simpl; [reflexivity|].
  rewrite (bind_run _ _ w tt w).
  - apply IH. intros q Hq Hpre. rewrite <- app_assoc.
    apply (Hdir (c :: q)); [discriminate|]. apply prefix_cons. assumption.
  - apply mkdir1_Ok. right. split; [|reflexivity].
    apply (Hdir [c]); [discriminate|]. apply prefix_cons, prefix_nil.
Qed.

Lemma prefix_parent_ne (q out : path) :
  q <> [] -> q `prefix_of` parent out -> q <> out.
Proof.
  intros Hq Hpre ->. apply prefix_length in Hpre.
  unfold parent in Hpre. destruct out as [|c out]; [contradiction|].
  rewrite removelast_firstn_len, length_firstn in Hpre. simpl in Hpre. lia.
Qed.

(** X12.  After [save_geoid_as_geotiff] has returned, the writer
    storing the file, the output path holds the raster that was given,
    every directory above the output path exists, every other path that
    held something holds it still, and the paths that are neither the
    output nor above it are as they were. *)
Theorem save_geoid_as_geotiff_writes array out w w' :
  (forall c, writer E out (GeoTIFF c) = Stored) ->
  save_geoid_as_geotiff E array out w = Ok (tt, w') ->
  w' !! out = Some (GeoTIFF array) /\
  (forall q, q <> [] -> q `prefix_of` parent out -> w' !! q = Some Dir) /\
  (forall p n, p <> out -> w !! p = Some n -> w' !! p = Some n) /\
  (forall p, p <> out -> ~ p `prefix_of` parent out -> w' !! p = w !! p).
Proof.
  intros Hwr H. unfold save_geoid_as_geotiff, to_raster in H.
  apply bind_Ok in H as ([] & w0 & Hdir & H).
  apply write_Ok in H as [[_ ->]|[Hl _]]; [|rewrite Hwr in Hl; discriminate].
  apply (mkdir_from_Ok (parent out) [] w w0) in Hdir as (H1 & H2 & H3).
  split; [apply lookup_insert_eq|]. split; [|split].
  - intros q Hq Hpre.
    rewrite lookup_insert_ne
      by (intros Heq; symmetry in Heq; revert Heq;
          apply prefix_parent_ne; assumption).
    apply (H1 q Hq Hpre).
  - intros p n Hp Hn. rewrite lookup_insert_ne by congruence.
    apply H2. assumption.
  - intros p Hp Hnot. rewrite lookup_insert_ne by congruence.
    apply H3. intros q _ Hpre ->. contradiction.
Qed.

(** X13.  [save_geoid_as_geotiff] returns, the writer storing the
    file, exactly when none of the directories above the output path is
    held by a file; what it raises otherwise is the [FileExistsError] or
    the [NotADirectoryError] of [mkdir]. *)
Theorem save_geoid_as_geotiff_blocked array out w :
  (forall c, writer E out (GeoTIFF c) = Stored) ->
  ((exists w', save_geoid_as_geotiff E array out w = Ok (tt, w')) <->
   (forall q, q <> [] -> q `prefix_of` parent out ->
      w !! q = None \/ w !! q = Some Dir)) /\
  (forall e, save_geoid_as_geotiff E array out w = Raise e ->
     e = FileExistsError \/ e = NotADirectoryError).
Proof.
  intros Hwr. unfold save_geoid_as_geotiff, to_raster. split; [split|].
  - intros [w' H]. apply bind_Ok in H as ([] & w0 & Hdir & _).
    apply (mkdir_from_Ok (parent out) [] w w0) in Hdir as (H1 & _).
    intros q Hq Hpre. apply (H1 q Hq Hpre).
  - intros Hfree.
    destruct (mkdir_from_returns (parent out) [] w Hfree) as [w0 Hdir].
    eexists. erewrite bind_run by exact Hdir.
    unfold write. rewrite Hwr. reflexivity.
  - intros e H. apply bind_Raise in H as [H|([] & w0 & _ & H)].
    + eapply mkdir_from_Raise. exact H.
    + unfold write in H. rewrite Hwr in H. discriminate.
Qed.

Lemma save_geoid_as_geotiff_again array out w w' :
  (forall c, writer E out (GeoTIFF c) = Stored) ->
  save_geoid_as_geotiff E array out w = Ok (tt, w') ->
  save_geoid_as_geotiff E array out w' = Ok (tt, w').
Proof.
  intros Hwr H. unfold save_geoid_as_geotiff, to_raster in H |- *.
  apply bind_Ok in H as ([] & w0 & Hdir & H).
  apply write_Ok in H as [[_ ->]|[Hl _]]; [|rewrite Hwr in Hl; discriminate].
  apply (mkdir_from_Ok (parent out) [] w w0) in Hdir as (H1 & _).
  rewrite (bind_run _ _ _ tt (<[out := GeoTIFF array]> w0)).
  - unfold write. rewrite Hwr, insert_insert_eq. reflexivity.
  - apply (mkdir_from_present (parent out) []). intros q Hq Hpre.
    rewrite lookup_insert_ne
      by (intros Heq; symmetry in Heq; revert Heq;
          apply prefix_parent_ne; assumption).
    apply (H1 q Hq Hpre).
Qed.

(** X14.  [generate_geoid] can be run again: a second run on the state
    that a first run left returns and leaves this state as it is, since
    the directories exist and the same raster is written over the first
    one. *)
Theorem generate_geoid_again n out w w' :
  (forall c, writer E out (GeoTIFF c) = Stored) ->
  generate_geoid E n out w = Ok (tt, w') ->
  generate_geoid E n out w' = Ok (tt, w').
Proof.
  intros Hwr H. unfold generate_geoid in H |- *.
  apply bind_Ok in H as (array & w1 & Hsyn & H).
  apply lift_Ok in Hsyn as [Hsyn ->].
  rewrite Hsyn. cbv beta iota zeta delta [mbind M_bind lift].
  cbv zeta in H.
  apply (save_geoid_as_geotiff_again _ out w w' Hwr H).
Qed.

End directories.

(** ** The decomposition of any collection *)

Section decomposition.

Import Shapely Gpd Spec.
Context (E : env).

(** The parts of a boundary are points or lines. *)
Lemma boundary_parts g b part :
  boundary g = Some b -> In part (get_parts b) ->
  (exists c, part = Point c) \/ (exists cs, part = LineString cs).
Proof.
  destruct g as [c|cs|cs|ls|rings|ps|gs]; simpl.
  - intros [= <-] [].
  - intros [= <-] [].
  - destruct (is_closed cs); intros [= <-]; simpl; [intros []|].
    intros Hin. apply in_map_iff in Hin as (c & <- & _). eauto.
  - destruct (mod2_boundary ls) as [|c [|d cs]]; intros [= <-]; simpl.
    + intros [].
    + intros [<-|[]]. eauto.
    + intros Hin.
      change (In part (map Point (c :: d :: cs))) in Hin.
      apply in_map_iff in Hin as (x & <- & _). eauto.
  - destruct rings as [|shell [|hole holes]]; intros [= <-]; simpl.
    + intros [].
    + intros [<-|[]]. eauto.
    + intros Hin.
      change (In part (map LineString (shell :: hole :: holes))) in Hin.
      apply in_map_iff in Hin as (x & <- & _). eauto.
  - intros [= <-] Hin. apply in_map_iff in Hin as (x & <- & _). eauto.
  - discriminate.
Qed.

Lemma pieces_In x f :
  In x (pieces f) ->
  properties x = properties f /\ (is_Point x \/ is_LineString x).
Proof.
  unfold pieces, parts_of at 2. intros Hx.
  apply in_flat_map in Hx as (p & Hp & Hx).
  destruct (geometry_of f) as [g|]; [|contradiction].
  apply in_map_iff in Hp as (g0 & <- & _).
  unfold parts_of, boundary_of in Hx. simpl in Hx.
  destruct (boundary g0) as [b|] eqn:Hb; [|contradiction].
  apply in_map_iff in Hx as (part & <- & Hpart).
  split; [reflexivity|].
  destruct (boundary_parts g0 b part Hb Hpart) as [[c ->]|[cs ->]];
    [left|right]; eexists; reflexivity.
Qed.

(** X15.  Whatever geometries are read, [clean_world_geojson] writes
    Point and LineString features only, each with the properties of one
    of the features read, and indexed 0, 1, 2, ... *)
Theorem clean_world_geojson_kinds url out w fs :
  read_file E url = Ok fs ->
  (forall c, writer E out (GeoJSON c) = Stored) ->
  exists lines,
    clean_world_geojson E url out w =
      Ok (lines, <[out := GeoJSON (features lines)]> w) /\
    Forall (fun x => is_Point x \/ is_LineString x) (features lines) /\
    Forall (fun x => exists f, In f fs /\ properties x = properties f)
           (features lines) /\
    map fst lines = flat_index (length lines).
Proof.
  intros Hread Hwr.
  destruct (clean_world_geojson_returns E url out w fs Hread Hwr)
    as [lines Hrun].
  exists lines. split; [exact Hrun|].
  apply clean_world_geojson_inv in Hrun as (fs' & Hread' & Hf & Hidx & _).
  assert (fs' = fs) as -> by congruence.
  split; [|split; [|assumption]]; rewrite Hf; apply Forall_forall;
    intros x Hx; apply list_elem_of_In, in_flat_map in Hx as (f & Hfin & Hx);
    apply pieces_In in Hx as [Hprops Hkind]; eauto.
Qed.

(** X16.  Features without a geometry and Point and MultiPoint
    features leave nothing: on a collection of such features, the empty
    collection among them, [clean_world_geojson] writes and returns an
    empty collection. *)
Theorem clean_world_geojson_drops_points url out w fs :
  read_file E url = Ok fs ->
  Forall (fun f => geometry_of f = None \/
                   (exists c, geometry_of f = Some (Point c)) \/
                   (exists cs, geometry_of f = Some (MultiPoint cs))) fs ->
  (forall c, writer E out (GeoJSON c) = Stored) ->
  clean_world_geojson E url out w = Ok ([], <[out := GeoJSON []]> w).
Proof.
  intros Hread Hfs Hwr.
  destruct (clean_world_geojson_returns E url out w fs Hread Hwr)
    as [lines Hrun].
  pose proof Hrun as Hinv.
  apply clean_world_geojson_inv in Hinv as (fs' & Hread' & Hf & _).
  assert (fs' = fs) as -> by congruence.
  assert (Hnil : features lines = []).
  { rewrite Hf. clear Hf Hread Hread' Hrun.
    induction Hfs as [|f fs Hfk _ IH]; simpl; [reflexivity|].
    rewrite IH, app_nil_r. unfold pieces, parts_of at 2.
    destruct Hfk as [->|[[c ->]|[cs ->]]]; simpl; [reflexivity|reflexivity|].
    induction cs as [|c cs IHc]; simpl; [reflexivity|]. exact IHc. }
  rewrite Hnil in Hrun. unfold features in Hnil.
  apply map_eq_nil in Hnil. rewrite Hnil in Hrun. exact Hrun.
Qed.

Lemma closed_ring_ends f ring :
  is_closed ring = true ->
  pieces (with_geometry f (LineString ring)) = [].
Proof.
  intros Hc. unfold pieces, parts_of at 2. simpl.
  unfold parts_of, boundary_of. simpl. rewrite Hc. reflexivity.
Qed.

(** X17.  Decomposing what was decomposed leaves nothing: when the
    rings of the polygons read are closed, a second run of
    [clean_world_geojson], on the features that the first run returned,
    writes and returns an empty collection. *)
Theorem clean_world_geojson_twice url url' out out' w fs lines w1 :
  read_file E url = Ok fs ->
  Forall is_polygonal fs ->
  Forall (fun f => Forall (Forall (fun ring => is_closed ring = true))
                          (single_polygons f)) fs ->
  clean_world_geojson E url out w = Ok (lines, w1) ->
  read_file E url' = Ok (features lines) ->
  (forall c, writer E out' (GeoJSON c) = Stored) ->
  clean_world_geojson E url' out' w1 = Ok ([], <[out' := GeoJSON []]> w1).
Proof.
  intros Hread Hpoly Hclosed Hrun Hread' Hwr.
  apply clean_world_geojson_inv in Hrun as (fs0 & Hread0 & Hf & _).
  assert (fs0 = fs) as -> by congruence.
  destruct (clean_world_geojson_returns E url' out' w1 _ Hread' Hwr)
    as [lines' Hrun'].
  pose proof Hrun' as Hinv.
  apply clean_world_geojson_inv in Hinv as (fs1 & Hread1 & Hf' & _).
  assert (fs1 = features lines) as -> by congruence.
  assert (Hnil : features lines' = []).
  { rewrite Hf', Hf. clear - Hpoly Hclosed.
    induction Hpoly as [|f fs Hp _ IH]; simpl; [reflexivity|].
    apply Forall_cons in Hclosed as [Hc Hcs].
    rewrite flat_map_app, (IH Hcs), app_nil_r.
    unfold pieces at 2. rewrite (polygonal_lines f Hp).
    unfold rings_as_lines.
    assert (Hrings : Forall (fun ring => is_closed ring = true)
                       (concat (single_polygons f))).
    { apply Forall_concat. assumption. }
    induction Hrings as [|ring rings Hring _ IHr]; simpl; [reflexivity|].
    rewrite closed_ring_ends by assumption. exact IHr. }
  rewrite Hnil in Hrun'. unfold features in Hnil.
  apply map_eq_nil in Hnil. rewrite Hnil in Hrun'. exact Hrun'.
Qed.

End decomposition.

(** ** What a run leaves behind *)

Section artifacts.

Import Shapely Gpd Spec.
Context (E : env).


End artifacts.

(** ** What a run leaves alone *)

Section untouched.

Import Spec.
Context (E : env) (p : path).

(** The path [p] keeps what it holds, and when it held nothing it holds
    nothing or has become a directory. *)
Local Abbreviation grows w w' :=
  ((forall n : node, w !! p = Some n -> w' !! p = Some n) /\
   (w !! p = None -> w' !! p = None \/ w' !! p = Some Dir)).







End untouched.

(** ** The properties on the sample inputs *)

Import Examples Spec Shapely Gpd.

Lemma wf_raster_4x4 : Xr.wf_DataArray raster_4x4.
Proof. repeat split; simpl; repeat constructor. Qed.

(** C3 on the raster of 4 rows and 4 columns at the stride 2: the rows and
    columns 0 and 2 are kept, and the shape is (2, 2). *)
Lemma geotiff_to_json_decimation_witness :
  exists res,
    geotiff_to_json (env_reading []) tif json 2 {[ tif := GeoTIFF raster_4x4 ]} =
      Ok (res, <[json := Json res]> {[ tif := GeoTIFF raster_4x4 ]}) /\
    heights res = [[0; 2]; [20; nan]]%float /\
    shape res = [ceil_div 4 2; ceil_div 4 2] /\
    has_dims (heights res) 2 2 /\
    forall i j, cell (heights res) i j =
                cell (Np.rows (Xr.values raster_4x4)) (i * 2) (j * 2).
Proof.
  destruct (geotiff_to_json_decimation (env_reading []) tif json 2
              {[ tif := GeoTIFF raster_4x4 ]} raster_4x4 4 4)
    as [Hres Hret].
  - reflexivity.
  - exact wf_raster_4x4.
  - reflexivity.
  - lia.
  - destruct Hret as [res Hrun]; [lia|lia|reflexivity|].
    exists res. split; [exact Hrun|]. split; [|exact (Hres _ _ Hrun)].
    assert (Hc : match geotiff_to_json (env_reading []) tif json 2
                         {[ tif := GeoTIFF raster_4x4 ]} with
                 | Ok (r, _) => Some r
                 | Raise _ => None
                 end = Some res) by (rewrite Hrun; reflexivity).
    vm_compute in Hc. injection Hc as <-. reflexivity.
Defined.

(** C10 on the same raster: two latitudes, two longitudes, a grid of 2
    rows and 2 columns. *)
Lemma geotiff_to_json_axes_witness :
  exists res n m,
    geotiff_to_json (env_reading []) tif json 2 {[ tif := GeoTIFF raster_4x4 ]} =
      Ok (res, <[json := Json res]> {[ tif := GeoTIFF raster_4x4 ]}) /\
    lats res = [90; -30]%float /\ lons res = [-180; 0]%float /\
    shape res = [n; m] /\ length (lats res) = n /\ length (lons res) = m /\
    has_dims (heights res) n m.
Proof.
  destruct (geotiff_to_json_axes (env_reading []) tif json 2
              {[ tif := GeoTIFF raster_4x4 ]} raster_4x4)
    as [Hres Hret].
  - reflexivity.
  - exact wf_raster_4x4.
  - lia.
  - destruct Hret as [res Hrun]; [simpl; lia|simpl; lia|reflexivity|].
    destruct (Hres _ _ Hrun) as (n & m & H).
    exists res, n, m. split; [exact Hrun|].
    assert (Hc : match geotiff_to_json (env_reading []) tif json 2
                         {[ tif := GeoTIFF raster_4x4 ]} with
                 | Ok (r, _) => Some r
                 | Raise _ => None
                 end = Some res) by (rewrite Hrun; reflexivity).
    vm_compute in Hc. injection Hc as Hc.
    split; [rewrite <- Hc; reflexivity|].
    split; [rewrite <- Hc; reflexivity|exact H].
Defined.

(** C4 on the same raster: the cell without data stays in the grid, and
    the extrema 0 and 20 are those of the three other cells kept, not the
    maximum 33 of the raster. *)
Lemma geotiff_to_json_extrema_witness :
  exists res,
    geotiff_to_json (env_reading []) tif json 2 {[ tif := GeoTIFF raster_4x4 ]} =
      Ok (res, <[json := Json res]> {[ tif := GeoTIFF raster_4x4 ]}) /\
    heights res = [[0; 2]; [20; nan]]%float /\
    minHeight res = 0%float /\ maxHeight res = 20%float /\
    forall i j v,
      cell (heights res) i j = Some v -> F64.isnan v = false ->
      (minHeight res <=? v)%float = true /\ (v <=? maxHeight res)%float = true.
Proof.
  destruct (geotiff_to_json_extrema (env_reading []) tif json 2
              {[ tif := GeoTIFF raster_4x4 ]} raster_4x4)
    as [Hres Hret].
  - reflexivity.
  - lia.
  - destruct Hret as [res Hrun];
      [exact wf_raster_4x4|simpl; lia|simpl; lia|reflexivity|].
    exists res. split; [exact Hrun|].
    assert (Hc : match geotiff_to_json (env_reading []) tif json 2
                         {[ tif := GeoTIFF raster_4x4 ]} with
                 | Ok (r, _) => Some r
                 | Raise _ => None
                 end = Some res) by (rewrite Hrun; reflexivity).
    vm_compute in Hc. injection Hc as Hc.
    split; [rewrite <- Hc; reflexivity|].
    split; [rewrite <- Hc; reflexivity|].
    split; [rewrite <- Hc; reflexivity|].
    apply (Hres _ _ Hrun).
Defined.

(** C1 on a polygon with one hole: two LineString features, the exterior
    ring and the hole. *)
Lemma clean_world_geojson_rings_witness :
  exists lines w',
    clean_world_geojson (env_reading [holed_polygon]) "world.geojson"
      lines_json ∅ = Ok (lines, w') /\
    Forall is_LineString (features lines) /\
    length lines = 2 /\
    features lines =
      [with_geometry holed_polygon (LineString square);
       with_geometry holed_polygon (LineString hole)].
Proof.
  destruct (clean_world_geojson_rings (env_reading [holed_polygon])
              "world.geojson" lines_json ∅ [holed_polygon])
    as [Hres Hret].
  - reflexivity.
  - constructor; [left; eexists; reflexivity|constructor].
  - destruct Hret as [lines Hrun]; [reflexivity|].
    exists lines. eexists. split; [exact Hrun|].
    destruct (Hres _ _ Hrun) as (H1 & H2 & H3).
    split; [exact H1|]. split; [exact H2|exact H3].
Defined.

(** C6, amended, on one open line: its two end points. *)
Lemma clean_world_geojson_on_lines_witness :
  exists lines w',
    clean_world_geojson (env_reading [open_line]) "lines.geojson"
      lines_json ∅ = Ok (lines, w') /\
    features lines =
      [with_geometry open_line (Point (0, 0)%float);
       with_geometry open_line (Point (1, 1)%float)].
Proof.
  destruct (clean_world_geojson_on_lines (env_reading [open_line])
              "lines.geojson" lines_json ∅ [open_line])
    as [Hres Hret].
  - reflexivity.
  - constructor; [eexists; reflexivity|constructor].
  - destruct Hret as [lines Hrun]; [reflexivity|].
    exists lines. eexists. split; [exact Hrun|].
    destruct (Hres _ _ Hrun) as (H1 & _). exact H1.
Defined.

(** C5, amended, on a line and a polygon: the end points of the line and
    the rings of the polygon are written together. *)
Lemma clean_world_geojson_unchecked_witness :
  exists lines,
    clean_world_geojson (env_reading [open_line; holed_polygon])
      "mixed.geojson" lines_json ∅ =
      Ok (lines, <[lines_json := GeoJSON (features lines)]> ∅) /\
    features lines = flat_map pieces [open_line; holed_polygon].
Proof.
  apply (clean_world_geojson_unchecked (env_reading [open_line; holed_polygon])
           "mixed.geojson" lines_json ∅ [open_line; holed_polygon]).
  - reflexivity.
  - reflexivity.
Defined.

(** C6 as stated fails: decomposing a collection that holds one open
    LineString returns two Point features, not the input. *)
Lemma clean_world_geojson_not_idempotent :
  exists E url out w fs lines w',
    read_file E url = Ok fs /\
    Forall is_LineString fs /\
    clean_world_geojson E url out w = Ok (lines, w') /\
    features lines <> fs.
Proof.
  exists (env_reading [open_line]), "lines.geojson", lines_json, ∅, [open_line].
  eexists _, _. split; [reflexivity|]. split.
  - constructor; [eexists; reflexivity|constructor].
  - split; [vm_compute; reflexivity|]. vm_compute. discriminate.
Qed.

(** C5 as stated fails: on a collection that holds one open LineString,
    [clean_world_geojson] returns and writes Point features without
    raising. *)
Lemma clean_world_geojson_writes_points :
  exists E url out w lines w',
    clean_world_geojson E url out w = Ok (lines, w') /\
    w' !! out = Some (GeoJSON (features lines)) /\
    ~ Forall is_LineString (features lines).
Proof.
  exists (env_reading [open_line]), "lines.geojson", lines_json, ∅.
  eexists _, _. split; [vm_compute; reflexivity|]. split.
  - vm_compute. reflexivity.
  - intros H. apply Forall_cons in H as [[cs Hcs] _].
    vm_compute in Hcs. discriminate.
Qed.

(** C7 as stated fails: at the stride -1, which is below 1,
    [geotiff_to_json] returns the grid in reverse order instead of
    raising. *)
Lemma geotiff_to_json_negative_stride :
  (-1 < 1)%Z /\
  exists res w',
    geotiff_to_json (env_reading []) tif json (-1)
      {[ tif := GeoTIFF raster_4x4 ]} = Ok (res, w') /\
    lats res = [-90; -30; 30; 90]%float /\
    shape res = [4; 4].
Proof.
  split; [lia|]. eexists _, _. repeat split; vm_compute; reflexivity.
Qed.

(** C7, amended, on a configuration with the stride 0. *)
Lemma stride_checked_by_PipelineConfig_witness :
  PipelineConfig_init stride_0 = Raise ValidationError /\
  geotiff_to_json (env_reading []) tif json 0 {[ tif := GeoTIFF raster_4x4 ]} =
    Raise ValueError /\
  geotiff_to_json (env_reading []) tif json 0 ∅ = Raise RasterioIOError.
Proof.
  destruct (stride_checked_by_PipelineConfig stride_0) as (H1 & _ & H3 & H4).
  - simpl. lia.
  - split; [exact H1|]. split.
    + apply (H4 (env_reading []) tif json _ raster_4x4); reflexivity.
    + apply (H3 (env_reading []) tif json ∅). intros r.
      rewrite lookup_empty. discriminate.
Defined.

(** C2 at the degree 1: the axis written ends at 180 and does not start
    at -180. *)
Lemma generate_geoid_keeps_180_witness :
  exists raster,
    generate_geoid (env_reading []) 1 tif ∅ =
      Ok (tt, <[tif := GeoTIFF raster]> ∅) /\
    Xr.longitude raster = [-135; -90; -45; 0; 45; 90; 135; 180]%float /\
    ~ Forall (fun lon => in_range lon = true) (Xr.longitude raster).
Proof.
  destruct (generate_geoid_keeps_180 (env_reading []) 1 tif ∅ ∅ geoid_degree1)
    as (raster & Hrun & _ & Hrange).
  - reflexivity.
  - simpl. tauto.
  - reflexivity.
  - reflexivity.
  - exists raster. split; [exact Hrun|]. split; [|exact Hrange].
    assert (Hc : match generate_geoid (env_reading []) 1 tif ∅ with
                 | Ok (_, w') => w' !! tif
                 | Raise _ => None
                 end = Some (GeoTIFF raster))
      by (rewrite Hrun; apply lookup_insert_eq).
    vm_compute in Hc. injection Hc as <-. reflexivity.
Defined.

(** C8 on the default configuration, from the empty file system. *)
Lemma run_pipeline_checks_witness :
  exists w',
    run_pipeline (env_reading [holed_polygon; two_squares]) default_config ∅ =
      Ok (tt, w') /\
    is_Some (w' !! geotiff_path default_config) /\
    is_Some (w' !! json_path default_config) /\
    is_Some (w' !! world_boundaries_path default_config).
Proof.
  destruct (run_pipeline (env_reading [holed_polygon; two_squares])
              default_config ∅) as [[[] w']|e] eqn:Hrun;
    [|vm_compute in Hrun; discriminate].
  exists w'. split; [reflexivity|].
  apply (proj1 (run_pipeline_checks (env_reading [holed_polygon; two_squares])
                  default_config ∅)).
  exact Hrun.
Defined.

(** ** Further properties on sample inputs *)

Import Cases.

Lemma wf_geoid_degree1 : Xr.wf_DataArray geoid_degree1.
Proof. repeat split; simpl; repeat constructor. Qed.

(** X1 on the raster of 4 rows and 4 columns. *)
Lemma geotiff_to_json_full_resolution_witness :
  exists res,
    geotiff_to_json (env_reading []) tif json 1 {[ tif := GeoTIFF raster_4x4 ]} =
      Ok (res, <[json := Json res]> {[ tif := GeoTIFF raster_4x4 ]}) /\
    heights res = Np.rows (Xr.values raster_4x4) /\
    lats res = Xr.latitude raster_4x4 /\
    lons res = Xr.longitude raster_4x4 /\
    shape res = [4; 4].
Proof.
  apply (geotiff_to_json_full_resolution (env_reading []) tif json
           {[ tif := GeoTIFF raster_4x4 ]} raster_4x4);
    [reflexivity|exact wf_raster_4x4|simpl; lia|simpl; lia|reflexivity].
Defined.

(** X2 on the same raster at the stride 2. *)
Lemma geotiff_to_json_coordinates_witness :
  exists res,
    geotiff_to_json (env_reading []) tif json 2 {[ tif := GeoTIFF raster_4x4 ]} =
      Ok (res, <[json := Json res]> {[ tif := GeoTIFF raster_4x4 ]}) /\
    forall i j,
      lats res !! i = Xr.latitude raster_4x4 !! (i * 2) /\
      lons res !! j = Xr.longitude raster_4x4 !! (j * 2) /\
      cell (heights res) i j =
        cell (Np.rows (Xr.values raster_4x4)) (i * 2) (j * 2).
Proof.
  apply (geotiff_to_json_coordinates (env_reading []) tif json 2
           {[ tif := GeoTIFF raster_4x4 ]} raster_4x4);
    [reflexivity|exact wf_raster_4x4|simpl; lia|simpl; lia|lia|reflexivity].
Defined.

(** X3 on the same raster: the stride 4 is the stride 2 taken twice. *)
Lemma geotiff_to_json_coarser_witness :
  exists fine coarse,
    geotiff_to_json (env_reading []) tif json 2 {[ tif := GeoTIFF raster_4x4 ]} =
      Ok (fine, <[json := Json fine]> {[ tif := GeoTIFF raster_4x4 ]}) /\
    geotiff_to_json (env_reading []) tif json 4 {[ tif := GeoTIFF raster_4x4 ]} =
      Ok (coarse, <[json := Json coarse]> {[ tif := GeoTIFF raster_4x4 ]}) /\
    forall i j,
      cell (heights coarse) i j = cell (heights fine) (i * 2) (j * 2) /\
      lats coarse !! i = lats fine !! (i * 2) /\
      lons coarse !! j = lons fine !! (j * 2).
Proof.
  apply (geotiff_to_json_coarser (env_reading []) tif json 2 2
           {[ tif := GeoTIFF raster_4x4 ]} raster_4x4);
    [reflexivity|exact wf_raster_4x4|simpl; lia|simpl; lia|lia|lia|reflexivity].
Defined.

(** X4 on the raster without rows. *)
Lemma geotiff_to_json_empty_raster_witness :
  geotiff_to_json (env_reading []) tif json 1 {[ tif := GeoTIFF raster_0x0 ]} =
    Raise ValueError.
Proof.
  apply (geotiff_to_json_empty_raster (env_reading []) tif json 1
           {[ tif := GeoTIFF raster_0x0 ]} raster_0x0).
  - reflexivity.
  - repeat split; simpl; constructor.
  - left. reflexivity.
Defined.

(** X5 on a row of two cells without data. *)
Lemma geotiff_to_json_all_nan_witness :
  exists res,
    geotiff_to_json (env_reading []) tif json 1 {[ tif := GeoTIFF raster_nan ]} =
      Ok (res, <[json := Json res]> {[ tif := GeoTIFF raster_nan ]}) /\
    F64.isnan (minHeight res) = true /\ F64.isnan (maxHeight res) = true.
Proof.
  apply (geotiff_to_json_all_nan (env_reading []) tif json 1
           {[ tif := GeoTIFF raster_nan ]} raster_nan).
  - reflexivity.
  - repeat split; simpl; repeat constructor.
  - simpl. lia.
  - simpl. lia.
  - lia.
  - reflexivity.
  - repeat constructor.
Defined.

(** X6 on the raster of 4 rows and 4 columns at the stride -2. *)
Lemma geotiff_to_json_reversed_witness :
  exists res,
    geotiff_to_json (env_reading []) tif json (-2)
      {[ tif := GeoTIFF raster_4x4 ]} =
      Ok (res, <[json := Json res]> {[ tif := GeoTIFF raster_4x4 ]}) /\
    shape res = [2; 2] /\
    length (lats res) = 2 /\
    length (lons res) = 2 /\
    (forall i, i * 2 < 4 ->
       lats res !! i = Xr.latitude raster_4x4 !! (4 - S (i * 2))) /\
    (forall j, j * 2 < 4 ->
       lons res !! j = Xr.longitude raster_4x4 !! (4 - S (j * 2))) /\
    (forall i j, i * 2 < 4 -> j * 2 < 4 ->
       cell (heights res) i j =
       cell (Np.rows (Xr.values raster_4x4)) (4 - S (i * 2)) (4 - S (j * 2))).
Proof.
  apply (geotiff_to_json_reversed (env_reading []) tif json (-2)
           {[ tif := GeoTIFF raster_4x4 ]} raster_4x4);
    [reflexivity|exact wf_raster_4x4|simpl; lia|simpl; lia|lia|reflexivity].
Defined.

(** X7 on the same raster: the strides 1 and 2. *)
Lemma geotiff_to_json_range_witness :
  exists fine coarse,
    geotiff_to_json (env_reading []) tif json 1 {[ tif := GeoTIFF raster_4x4 ]} =
      Ok (fine, <[json := Json fine]> {[ tif := GeoTIFF raster_4x4 ]}) /\
    geotiff_to_json (env_reading []) tif json 2 {[ tif := GeoTIFF raster_4x4 ]} =
      Ok (coarse, <[json := Json coarse]> {[ tif := GeoTIFF raster_4x4 ]}) /\
    (minHeight fine <=? minHeight coarse)%float = true /\
    (minHeight coarse <=? maxHeight coarse)%float = true /\
    (maxHeight coarse <=? maxHeight fine)%float = true.
Proof.
  apply (geotiff_to_json_range (env_reading []) tif json 1 2
           {[ tif := GeoTIFF raster_4x4 ]} raster_4x4);
    [reflexivity|exact wf_raster_4x4|simpl; lia|simpl; lia|lia|lia|reflexivity|].
  exists 0, 0, 0%float. split; reflexivity.
Defined.

(** X8 with writers that store nothing: the exception is that of [stat]. *)
Lemma geotiff_to_json_raises_witness :
  (exists d, writer env_losing json (Json d) = Fault FileNotFoundError) \/
  (FileNotFoundError = FileNotFoundError /\
   (exists d, writer env_losing json (Json d) = Lost) /\
   ({[ tif := GeoTIFF raster_4x4 ]} : world) !! json = None).
Proof.
  apply (geotiff_to_json_raises env_losing tif json 1
           {[ tif := GeoTIFF raster_4x4 ]} raster_4x4 FileNotFoundError);
    [reflexivity|exact wf_raster_4x4|simpl; lia|simpl; lia|lia|].
  vm_compute. reflexivity.
Defined.

(** X9 on the raster of 4 rows and 4 columns at the stride 4. *)
Lemma geotiff_to_json_single_cell_witness :
  exists res v lat lon,
    geotiff_to_json (env_reading []) tif json 4 {[ tif := GeoTIFF raster_4x4 ]} =
      Ok (res, <[json := Json res]> {[ tif := GeoTIFF raster_4x4 ]}) /\
    cell (Np.rows (Xr.values raster_4x4)) 0 0 = Some v /\
    Xr.latitude raster_4x4 !! 0 = Some lat /\
    Xr.longitude raster_4x4 !! 0 = Some lon /\
    heights res = [[v]] /\ lats res = [lat] /\ lons res = [lon] /\
    shape res = [1; 1] /\ minHeight res = v /\ maxHeight res = v.
Proof.
  apply (geotiff_to_json_single_cell (env_reading []) tif json 4
           {[ tif := GeoTIFF raster_4x4 ]} raster_4x4);
    [reflexivity|exact wf_raster_4x4|simpl; lia|simpl; lia|simpl; lia
    |simpl; lia|reflexivity].
Defined.

(** X10 at the degree 1. *)
Lemma generate_geoid_columns_witness :
  exists raster idx,
    generate_geoid (env_reading []) 1 tif ∅ =
      Ok (tt, <[tif := GeoTIFF raster]> ∅) /\
    Xr.wf_DataArray raster /\
    Np.shape (Xr.values raster) = Np.shape (Xr.values geoid_degree1) /\
    Xr.latitude raster = Xr.latitude geoid_degree1 /\
    idx ≡ₚ seq 0 8 /\
    forall j c, idx !! j = Some c ->
      Xr.longitude raster !! j =
        recenter (Xr.longitude geoid_degree1) !! c /\
      forall i, cell (Np.rows (Xr.values raster)) i j =
                cell (Np.rows (Xr.values geoid_degree1)) i c.
Proof.
  apply (generate_geoid_columns (env_reading []) 1 tif ∅ ∅ geoid_degree1);
    [reflexivity|exact wf_geoid_degree1|reflexivity|reflexivity].
Defined.

(** X11 at the degree 1. *)
Lemma generate_geoid_sorted_witness :
  exists raster,
    generate_geoid (env_reading []) 1 tif ∅ =
      Ok (tt, <[tif := GeoTIFF raster]> ∅) /\
    forall j x y,
      Xr.longitude raster !! j = Some x ->
      Xr.longitude raster !! S j = Some y ->
      (F64.isnan x = true -> F64.isnan y = true) /\
      (F64.isnan y = false -> (x <=? y)%float = true).
Proof.
  apply (generate_geoid_sorted (env_reading []) 1 tif ∅ ∅ geoid_degree1);
    reflexivity.
Defined.

(** X12 from the empty file system: the directory of the default raster path is made. *)
Lemma save_geoid_as_geotiff_writes_witness :
  exists w',
    save_geoid_as_geotiff (env_reading []) raster_4x4
      (geotiff_path default_config) ∅ = Ok (tt, w') /\
    w' !! geotiff_path default_config = Some (GeoTIFF raster_4x4) /\
    w' !! ["data"] = Some Dir.
Proof.
  destruct (save_geoid_as_geotiff (env_reading []) raster_4x4
              (geotiff_path default_config) ∅) as [[[] w']|e] eqn:Hrun;
    [|vm_compute in Hrun; discriminate].
  exists w'. split; [reflexivity|].
  destruct (save_geoid_as_geotiff_writes (env_reading []) raster_4x4
              (geotiff_path default_config) ∅ w') as (H1 & H2 & _).
  - reflexivity.
  - exact Hrun.
  - split; [exact H1|]. apply H2; [discriminate|]. exists []. reflexivity.
Defined.

(** X13 where a file stands in the place of the directory. *)
Lemma save_geoid_as_geotiff_blocked_witness :
  let w : world := {[ ["data"] := GeoTIFF raster_4x4 ]} in
  ((exists w', save_geoid_as_geotiff (env_reading []) raster_4x4
                 (geotiff_path default_config) w = Ok (tt, w')) <->
   (forall q, q <> [] -> q `prefix_of` parent (geotiff_path default_config) ->
      w !! q = None \/ w !! q = Some Dir)) /\
  (forall e, save_geoid_as_geotiff (env_reading []) raster_4x4
               (geotiff_path default_config) w = Raise e ->
     e = FileExistsError \/ e = NotADirectoryError).
Proof.
  intros w.
  apply (save_geoid_as_geotiff_blocked (env_reading []) raster_4x4
           (geotiff_path default_config) w).
  reflexivity.
Defined.

(** X14 at the degree 1, on the default raster path. *)
Lemma generate_geoid_again_witness :
  exists w',
    generate_geoid (env_reading []) 1 (geotiff_path default_config) ∅ =
      Ok (tt, w') /\
    generate_geoid (env_reading []) 1 (geotiff_path default_config) w' =
      Ok (tt, w').
Proof.
  destruct (generate_geoid (env_reading []) 1 (geotiff_path default_config) ∅)
    as [[[] w']|e] eqn:Hrun; [|vm_compute in Hrun; discriminate].
  exists w'. split; [reflexivity|].
  apply (generate_geoid_again (env_reading []) 1
           (geotiff_path default_config) ∅ w'); [reflexivity|exact Hrun].
Defined.

(** X15 on a line and a polygon. *)
Lemma clean_world_geojson_kinds_witness :
  exists lines,
    clean_world_geojson (env_reading [open_line; holed_polygon])
      "mixed.geojson" lines_json ∅ =
      Ok (lines, <[lines_json := GeoJSON (features lines)]> ∅) /\
    Forall (fun x => is_Point x \/ is_LineString x) (features lines) /\
    Forall (fun x => exists f, In f [open_line; holed_polygon] /\
                               properties x = properties f)
           (features lines) /\
    map fst lines = flat_index (length lines).
Proof.
  apply (clean_world_geojson_kinds (env_reading [open_line; holed_polygon])
           "mixed.geojson" lines_json ∅ [open_line; holed_polygon]);
    reflexivity.
Defined.

(** X16 on a point and a feature without geometry. *)
Lemma clean_world_geojson_drops_points_witness :
  clean_world_geojson (env_reading [point_feature; no_geometry])
    "points.geojson" lines_json ∅ =
  Ok ([], <[lines_json := GeoJSON []]> ∅).
Proof.
  apply (clean_world_geojson_drops_points
           (env_reading [point_feature; no_geometry])
           "points.geojson" lines_json ∅ [point_feature; no_geometry]).
  - reflexivity.
  - constructor; [right; left; eexists; reflexivity|].
    constructor; [left; reflexivity|constructor].
  - reflexivity.
Defined.

(** X17 on the rings of a polygon with one hole. *)
Lemma clean_world_geojson_twice_witness :
  clean_world_geojson env_rereading "rings.geojson" json
    (<[lines_json := GeoJSON rings]> ∅) =
  Ok ([], <[json := GeoJSON []]> (<[lines_json := GeoJSON rings]> ∅)).
Proof.
  apply (clean_world_geojson_twice env_rereading "world.geojson"
           "rings.geojson" lines_json json ∅ [holed_polygon]
           (of_features rings) (<[lines_json := GeoJSON rings]> ∅)).
  - reflexivity.
  - constructor; [left; eexists; reflexivity|constructor].
  - repeat constructor.
  - vm_compute. reflexivity.
  - reflexivity.
  - reflexivity.
Defined.


